(** * holidaybalance: the vacation ledger of [holidaybalance.go]

    A shallow embedding of the balance computation of [main] and of the
    description merge of [updateEvent], with the properties of the ledger
    proved about it.

    Modelling conventions.
    - A calendar date (the [Date] string "YYYY-MM-DD" of an
      [EventDateTime], or the [time.Time] parsed from it by [mustDate]) is
      its day number: the days elapsed since 0001-01-01, the zero
      [time.Time].  [listAllDayEvents] keeps only events whose dates parse,
      and on such strings the string order of the source is the order of
      the day numbers.  [Time.Sub] divided by [24*time.Hour] is the
      difference of two day numbers, as it is for dates within the range
      of a [time.Duration] (some 292 years) of each other; [sub_days]
      writes out the saturation of [Time.Sub] beyond that range.
    - A [float64] is an exact rational ([Q]), so the sums and products of
      the ledger are the exact ones, without rounding; [int] is [Z].  The
      two comparisons that steer the deduction are also evaluated in
      binary64 ([Binary64], [tests_binary64]): they agree with the
      rational ones on every percentage.  The running sum of line 175 is
      evaluated in binary64 as well ([Binary64.accrual]): there it
      depends, in its last place, on how the markers cut the days.
    - A pointer to an [EventDateTime] is an [option]: [nil] is [None].
    - [log.Fatal] and a nil dereference end the run: the loop body returns
      an [Abort] carrying the ledger at that moment. *)

From Stdlib Require Import ZArith QArith Qabs Lia Lqa List String Ascii Bool.
From Stdlib Require Import PrimFloat Uint63 SpecFloat FloatOps.
From stdpp Require Import gmap strings.
Import ListNotations.
Open Scope Z_scope.

(** ** Dates *)

Module Date.

(** Day number of the civil date [y]-[m]-[d] (proleptic Gregorian), what
    [time.Parse("2006-01-02", _)] denotes in this model. *)
Definition ymd (y m d : Z) : Z :=
  let y' := if m <=? 2 then y - 1 else y in
  let era := y' / 400 in
  let yoe := y' - era * 400 in
  let doy := (153 * (m + (if 2 <? m then -3 else 9)) + 2) / 5 + d - 1 in
  let doe := yoe * 365 + yoe / 4 - yoe / 100 + doy in
  era * 146097 + doe - 306.

(** [time.Time.IsZero]: the instant is January 1, year 1. *)
Definition IsZero (t : Z) : bool := t =? 0.

(** [time.Time.Weekday], Sunday = 0 ... Saturday = 6. *)
Definition Weekday (t : Z) : Z := (t + 1) mod 7.

Definition Sunday : Z := 0.
Definition Saturday : Z := 6.

(** [b.Sub(a) / (24*time.Hour)] *)
Definition days (a b : Z) : Z := b - a.

End Date.

(** ** Strings and the four regular expressions *)

Module Re.

Local Open Scope char_scope.

(** [\s] of RE2: tab, newline, form feed, carriage return, space. *)
Definition is_space (c : ascii) : bool :=
  match c with
  | "009" | "010" | "012" | "013" | " " => true
  | _ => false
  end.

(** [\d] of RE2, with the digit's value: the bytes 48 to 57. *)
Definition digit_val (c : ascii) : option Z :=
  let n := Z.of_N (N_of_ascii c) in
  if ((48 <=? n) && (n <=? 57))%Z then Some (n - 48)%Z else None.

Definition is_digit (c : ascii) : bool :=
  match digit_val c with Some _ => true | None => false end.

(** ASCII lower case of a byte. *)
Definition to_lower (c : ascii) : ascii :=
  let n := nat_of_ascii c in
  if (Nat.leb 65 n && Nat.leb n 90)%bool then ascii_of_nat (n + 32) else c.

Local Open Scope string_scope.

(** One pattern letter [a] (lower case) under [(?i)]: the letter in
    either case, and the other members of its Unicode fold orbit, which
    for the letters used here are U+017F (long s, bytes C5 BF) for [s]
    and U+212A (Kelvin sign, bytes E2 84 AA) for [k]. *)
Definition fold_char (a : ascii) (s : string) : option string :=
  match s with
  | String c r =>
      if Ascii.eqb (to_lower c) a then Some r
      else if Ascii.eqb a "s"%char then
        match s with
        | String "197" (String "191" r') => Some r'
        | _ => None
        end
      else if Ascii.eqb a "k"%char then
        match s with
        | String "226" (String "132" (String "170" r')) => Some r'
        | _ => None
        end
      else None
  | EmptyString => None
  end.

(** A literal under [(?i)] at the head of [s]: the rest of [s] after it. *)
Fixpoint fold_lit (p s : string) : option string :=
  match p with
  | EmptyString => Some s
  | String a p' =>
      match fold_char a s with
      | Some r => fold_lit p' r
      | None => None
      end
  end.

Fixpoint skip_spaces (s : string) : string :=
  match s with
  | String c r => if is_space c then skip_spaces r else s
  | EmptyString => s
  end.

(** [\s+] at the head of [s].  What follows [\s+] in the patterns is a
    letter, so the longest run of spaces is the only one to try. *)
Definition spaces1 (s : string) : option string :=
  match s with
  | String c r => if is_space c then Some (skip_spaces r) else None
  | EmptyString => None
  end.

Definition bind {A B} (o : option A) (f : A -> option B) : option B :=
  match o with Some a => f a | None => None end.

Definition matched {A} (o : option A) : bool :=
  match o with Some _ => true | None => false end.

(** An unanchored pattern matches when it matches at some position. *)
Fixpoint search (at_head : string -> bool) (s : string) : bool :=
  at_head s ||
  match s with
  | String _ r => search at_head r
  | EmptyString => false
  end.

(** [reStartDay = (?i)employee\s+start\s+da(y|te)] *)
Definition reStartDay (s : string) : bool :=
  search (fun s =>
    matched (bind (fold_lit "employee" s) (fun r =>
             bind (spaces1 r) (fun r =>
             bind (fold_lit "start" r) (fun r =>
             bind (spaces1 r) (fun r =>
             bind (fold_lit "da" r) (fun r =>
             if matched (fold_lit "y" r) then Some r
             else fold_lit "te" r))))))) s.

(** [reVacation = (?i)(holiday|vacation)] *)
Definition reVacation (s : string) : bool :=
  search (fun s => matched (fold_lit "holiday" s)
                   || matched (fold_lit "vacation" s)) s.

(** [reHalfDay = (?i)half\s+day] *)
Definition reHalfDay (s : string) : bool :=
  search (fun s =>
    matched (bind (fold_lit "half" s) (fun r =>
             bind (spaces1 r) (fun r => fold_lit "day" r)))) s.

(** [\s?%] at the head of [s]. *)
Definition percent_tail (s : string) : bool :=
  match s with
  | String "%" _ => true
  | String c (String "%" _) => is_space c
  | _ => false
  end.

(** [(\d\d|100)\s?%] at the head of [s]: the text of group 1.  The
    alternatives are tried in order. *)
Definition percent_at (s : string) : option string :=
  match s with
  | String c1 (String c2 r) =>
      if is_digit c1 && is_digit c2 && percent_tail r
      then Some (String c1 (String c2 EmptyString))
      else
        match s with
        | String "1" (String "0" (String "0" r')) =>
            if percent_tail r' then Some "100" else None
        | _ => None
        end
  | _ => None
  end.

(** [rePercent.FindStringSubmatch(s)]: [None] is the nil slice, [Some g]
    is a match whose group 1 ([m[1]] in the source) is [g].  The match
    returned is the leftmost one. *)
Fixpoint rePercent (s : string) : option string :=
  match percent_at s with
  | Some g => Some g
  | None =>
      match s with
      | String _ r => rePercent r
      | EmptyString => None
      end
  end.

Local Open Scope Z_scope.

Fixpoint digits (s : string) (acc : Z) : option Z :=
  match s with
  | EmptyString => Some acc
  | String c r =>
      match digit_val c with
      | Some d => digits r (10 * acc + d)
      | None => None
      end
  end.

(** [strconv.Atoi]: an optional sign, then one or more decimal digits;
    [None] is a non-nil error (syntax, or out of the range of [int]). *)
Definition Atoi (s : string) : option Z :=
  let parse (neg : bool) (t : string) :=
    match t with
    | EmptyString => None
    | _ =>
        match digits t 0 with
        | Some n =>
            let v := if neg then - n else n in
            if (- 2 ^ 63 <=? v) && (v <=? 2 ^ 63 - 1) then Some v else None
        | None => None
        end
    end in
  match s with
  | String "+" t => parse false t
  | String "-" t => parse true t
  | _ => parse false s
  end.

End Re.

(** ** Events, the ledger and the loop of [main] *)

(** The fields of a [calendar.Event] the program reads.  [Start] and
    [End_] stand for [ev.Start.Date] and [ev.End.Date]. *)
Record Event : Type := mkEvent {
  Summary : string;
  Description : string;
  Start : Z;
  End_ : Z
}.

(** The variables declared before the loop of [main]. *)
Record Ledger : Type := mkLedger {
  startDate : Z;
  lastDate : option Z;
  lastVacationDate : option Z;
  fte : Q;
  accrued : Q;
  spent : Q
}.

(** One call [updateEvent(srv, cal.Id, ev, daysOff, effDaysOff, accrued,
    spent)]: the ledger snapshot emitted for a marker. *)
Record Update : Type := mkUpdate {
  u_ev : Event;
  u_daysOff : Q;
  u_effDaysOff : Q;
  u_accrued : Q;
  u_spent : Q
}.

Inductive Failure : Type :=
| NoStartDate      (* log.Fatal("no employee start date set. ...") *)
| NilDereference.  (* lastDate.Date with lastDate == nil *)

Inductive Outcome : Type :=
| Continue (st : Ledger) (out : option Update)
| Abort (why : Failure) (st : Ledger).

Definition HolidaysPerCalendarDay : Q := 25 # 365.

(** The zero values of the declared variables. *)
Definition init : Ledger :=
  {| startDate := 0; lastDate := None; lastVacationDate := None;
     fte := 0; accrued := 0; spent := 0 |}.

(** [workdays[d]]: a missing key reads as 0. *)
Definition wd (workdays : gmap Z Z) (d : Z) : Z := default 0 (workdays !! d).

(** Lines 174-177: accrual up to the end of the event. *)
Definition accrue (st : Ledger) (ev : Event) : Ledger :=
  match lastDate st with
  | Some l =>
      {| startDate := startDate st;
         lastDate := Some (End_ ev);
         lastVacationDate := lastVacationDate st;
         fte := fte st;
         accrued := accrued st
                    + fte st * HolidaysPerCalendarDay
                      * inject_Z (Date.days l (End_ ev));
         spent := spent st |}
  | None => st
  end.

(** Lines 186-197: the employment fraction set by a start marker. *)
Definition start_fte (cur : Q) (ev : Event) : Q :=
  let m := match Re.rePercent (Summary ev) with
           | Some g => Some g
           | None => Re.rePercent (Description ev)
           end in
  match m with
  | Some g =>
      match Re.Atoi g with
      | Some v => if v <=? 100 then inject_Z v / 100 else cur
      | None => cur
      end
  | None => 1
  end.

(** Lines 179-201: an employee start marker. *)
Definition on_start (st : Ledger) (ev : Event) : Outcome :=
  let last := if Date.IsZero (startDate st) then Some (Start ev)
              else lastDate st in
  let st' := {| startDate := Start ev;
                lastDate := last;
                lastVacationDate := lastVacationDate st;
                fte := start_fte (fte st) ev;
                accrued := accrued st;
                spent := spent st |} in
  Continue st' (Some (mkUpdate ev 0 0 (accrued st') (spent st'))).

(** Lines 213-216: the start of the span after the overlap patch. *)
Definition patched_start (st : Ledger) (ev : Event) : Z :=
  match lastVacationDate st with
  | Some lv => if Start ev <? lv then lv else Start ev
  | None => Start ev
  end.

(** Lines 219-228. *)
Definition effective (f : Q) (calDays daysOff : Q) (half : bool) : Q :=
  if Qle_bool (5 * f) calDays then f * daysOff
  else if negb (Qle_bool (101 # 100) calDays) && half then 1 # 2
  else daysOff.

(** Lines 203-233: a vacation marker. *)
Definition on_vacation (workdays : gmap Z Z) (st : Ledger) (ev : Event)
  : Outcome :=
  if Date.IsZero (startDate st) then Abort NoStartDate st
  else
    match lastDate st with
    | None => Abort NilDereference st
    | Some l =>
        if End_ ev <? l then Continue st None
        else
          let s := patched_start st ev in
          let ev' := mkEvent (Summary ev) (Description ev) s (End_ ev) in
          let daysOff := inject_Z (wd workdays (End_ ev) - wd workdays s) in
          let calDays := inject_Z (Date.days s (End_ ev)) in
          let effDaysOff :=
            effective (fte st) calDays daysOff (Re.reHalfDay (Summary ev)) in
          let st' := {| startDate := startDate st;
                        lastDate := lastDate st;
                        lastVacationDate := Some (End_ ev);
                        fte := fte st;
                        accrued := accrued st;
                        spent := spent st + effDaysOff |} in
          Continue st'
            (Some (mkUpdate ev' daysOff effDaysOff (accrued st') (spent st')))
    end.

(** The body of the loop over [events], lines 173-234. *)
Definition loop_body (workdays : gmap Z Z) (st : Ledger) (ev : Event)
  : Outcome :=
  let st1 := accrue st ev in
  if Re.reStartDay (Summary ev) then on_start st1 ev
  else if Re.reVacation (Summary ev) then on_vacation workdays st1 ev
  else Continue st1 None.

Definition emitted (o : option Update) : list Update :=
  match o with Some u => [u] | None => [] end.

(** The loop: the final ledger and the snapshots emitted, in order; an
    abort keeps the ledger and the snapshots of that moment. *)
Inductive Result : Type :=
| Done (st : Ledger) (log : list Update)
| Aborted (why : Failure) (st : Ledger) (log : list Update).

Fixpoint run (workdays : gmap Z Z) (st : Ledger) (log : list Update)
  (events : list Event) : Result :=
  match events with
  | [] => Done st log
  | ev :: rest =>
      match loop_body workdays st ev with
      | Continue st' out => run workdays st' (log ++ emitted out) rest
      | Abort why st' => Aborted why st' log
      end
  end.

(** ** The work-day index, lines 146-154 *)

Definition is_workday (holidays : gmap Z string) (d : Z) : bool :=
  String.eqb (default EmptyString (holidays !! d)) EmptyString
  && negb (Date.Weekday d =? Date.Sunday)
  && negb (Date.Weekday d =? Date.Saturday).

(** [k] iterations of the loop from day [d] with counter [n]. *)
Fixpoint workdays_loop (holidays : gmap Z string) (k : nat) (d n : Z)
  (workdays : gmap Z Z) : gmap Z Z :=
  match k with
  | O => workdays
  | S k' =>
      workdays_loop holidays k' (d + 1)
        (if is_workday holidays d then n + 1 else n)
        (<[d := n]> workdays)
  end.

(** The index over the days [first .. last], both included: the loop runs
    while [d] is before [last] plus one hour. *)
Definition build_workdays (holidays : gmap Z string) (first last : Z)
  : gmap Z Z :=
  workdays_loop holidays (Z.to_nat (last + 1 - first)) first 0 ∅.

(** Lines 137-142. *)
Definition end_date (first : Event) (events : list Event) : Z :=
  fold_left (fun e v => if e <? End_ v then End_ v else e) events (Start first).

(** [main] from the sorted events on; [None] is [log.Fatalf("No events")]. *)
Definition main (holidays : gmap Z string) (events : list Event)
  : option Result :=
  match events with
  | [] => None
  | first :: _ =>
      let workdays :=
        build_workdays holidays (Start first) (end_date first events) in
      Some (run workdays init [] events)
  end.

(** ** The description merge of [updateEvent], lines 254-259 *)

Module Notes.

Local Open Scope string_scope.

Definition newline : ascii := "010"%char.

(** [strings.Split(s, "\n")] *)
Fixpoint Split (s : string) : list string :=
  match s with
  | EmptyString => [EmptyString]
  | String c r =>
      if Ascii.eqb c newline then EmptyString :: Split r
      else
        match Split r with
        | h :: t => String c h :: t
        | [] => [String c EmptyString]
        end
  end.

(** [strings.Join(lines, "\n")] *)
Fixpoint Join (lines : list string) : string :=
  match lines with
  | [] => EmptyString
  | [l] => l
  | l :: rest => l ++ String newline (Join rest)
  end.

(** [strings.HasPrefix] *)
Definition HasPrefix (s p : string) : bool := String.prefix p s.

Definition marker : string := "vacation from ".

(** The new description computed from [ev.Description] and the balance
    line. *)
Definition merge (description balanceline : string) : string :=
  let lines := Split description in
  let lines :=
    if (0 <? length lines)%nat && HasPrefix (List.last lines EmptyString) marker
    then removelast lines else lines in
  Join (lines ++ [balanceline]).

End Notes.

(** ** Notions used to state the properties *)

(** The classification the loop body makes of a marker: the start pattern
    is tried first, then the vacation pattern. *)
Inductive Kind : Type := EmploymentStart | VacationBooking | Ignored.

Definition classify (ev : Event) : Kind :=
  if Re.reStartDay (Summary ev) then EmploymentStart
  else if Re.reVacation (Summary ev) then VacationBooking
  else Ignored.

Definition ledger_of (r : Result) : Ledger :=
  match r with Done st _ => st | Aborted _ st _ => st end.

Definition log_of (r : Result) : list Update :=
  match r with Done _ log => log | Aborted _ _ log => log end.

(** The ledger [main] ends with on a calendar, and the snapshots it has
    emitted. *)
Definition ledger_after (holidays : gmap Z string) (events : list Event)
  : Ledger :=
  match main holidays events with Some r => ledger_of r | None => init end.

Definition log_after (holidays : gmap Z string) (events : list Event)
  : list Update :=
  match main holidays events with Some r => log_of r | None => [] end.

(** The working days of the half-open span [[a, b)], counted one by one. *)
Definition count_workdays (holidays : gmap Z string) (a b : Z) : Z :=
  Z.of_nat (length (filter (fun d => is_workday holidays d = true)
                           (seqZ a (b - a)))).

(** The working day in the words of the specification (section 4.1), to
    compare with [is_workday]: a day that is not Saturday or Sunday and
    not a key of the holiday set. *)
Definition spec_is_workday (holidays : gmap Z string) (d : Z) : bool :=
  match holidays !! d with Some _ => false | None => true end
  && negb (Date.Weekday d =? Date.Sunday)
  && negb (Date.Weekday d =? Date.Saturday).

Definition spec_count_workdays (holidays : gmap Z string) (a b : Z) : Z :=
  Z.of_nat (length (filter (fun d => spec_is_workday holidays d = true)
                           (seqZ a (b - a)))).

(** A text without a line break. *)
Fixpoint one_line (s : string) : bool :=
  match s with
  | EmptyString => true
  | String c r => negb (Ascii.eqb c Notes.newline) && one_line r
  end.

(** The end dates never go back along the sequence. *)
Fixpoint ends_ascend (events : list Event) : Prop :=
  match events with
  | [] => True
  | ev :: rest =>
      Forall (fun ev' => End_ ev <= End_ ev') rest /\ ends_ascend rest
  end.

(** What the run keeps when the ends of the markers never go back:
    [lastDate] is no later than the end of any marker still to come. *)
Definition forward (st : Ledger) (events : list Event) : Prop :=
  (0 <= fte st <= 1)%Q /\ (0 <= accrued st)%Q /\
  forall l, lastDate st = Some l -> Forall (fun ev => l <= End_ ev) events.

(** A marker that leaves the fraction [f] in place: any marker that is not
    a start marker, and a start marker that sets [f] again.  The start of
    such a start marker is not the zero date, which [startDate] reads as
    unset. *)
Definition keeps_fte (f : Q) (ev : Event) : Prop :=
  classify ev = EmploymentStart ->
  Date.IsZero (Start ev) = false /\ start_fte f ev == f.

(** The date accrual has reached after the markers [events], from [l]. *)
Definition reached (l : Z) (events : list Event) : Z :=
  List.last (map End_ events) l.

(** ** The arithmetic of the accrual, line 175 *)

(** What line 175 uses of its number type: the sum, the product, the
    conversion [float64(_)] of a count of days, and the constant
    [HolidaysPerCalendarDay]. *)
Record Arith (A : Type) : Type := mkArith {
  ar_add : A -> A -> A;
  ar_mul : A -> A -> A;
  ar_days : Z -> A;
  ar_rate : A
}.

Arguments ar_add {A}.
Arguments ar_mul {A}.
Arguments ar_days {A}.
Arguments ar_rate {A}.

(** [accrued + fte * HolidaysPerCalendarDay * float64(days)], the product
    taken from the left. *)
Definition accrue_in {A} (ar : Arith A) (f acc : A) (l e : Z) : A :=
  ar_add ar acc
    (ar_mul ar (ar_mul ar f (ar_rate ar)) (ar_days ar (Date.days l e))).

(** Lines 174-177 over the ends of the markers that follow, at a constant
    fraction [f], from the sum [acc] and the date [l]. *)
Fixpoint accrual_in {A} (ar : Arith A) (f acc : A) (l : Z) (ends : list Z)
  : A :=
  match ends with
  | [] => acc
  | e :: rest => accrual_in ar f (accrue_in ar f acc l e) e rest
  end.

(** The arithmetic of the ledger of this model: no rounding. *)
Definition exact : Arith Q :=
  mkArith Q Qplus Qmult inject_Z HolidaysPerCalendarDay.

(** The two tests of lines 223 and 225 as the program computes them, in
    binary64, for the fraction of a percentage [v] and a span of [n]
    calendar days; and the running sum of line 175 in binary64. *)
Module Binary64.

Definition of_int (n : Z) : float := PrimFloat.of_uint63 (Uint63.of_Z n).

Definition fte_of (v : Z) : float := PrimFloat.div (of_int v) (of_int 100).

Definition prorated (v n : Z) : bool :=
  PrimFloat.leb (PrimFloat.mul (of_int 5) (fte_of v)) (of_int n).

Definition short (n : Z) : bool :=
  PrimFloat.ltb (of_int n) (PrimFloat.div (of_int 101) (of_int 100)).

Definition upto (k : nat) : list Z := map Z.of_nat (seq 0 k).

(** [float64(d)] of a count of days, of either sign. *)
Definition of_days (d : Z) : float :=
  if d <? 0 then PrimFloat.opp (of_int (- d)) else of_int d.

(** [HolidaysPerCalendarDay]: the constant [25. / 365.], rounded to
    binary64 where it meets the [float64] [fte]. *)
Definition rate : float := PrimFloat.div (of_int 25) (of_int 365).

(** The arithmetic of the program: every sum and product is rounded to
    binary64 on its own, as the amd64 compiler does. *)
Definition arith : Arith float :=
  mkArith float PrimFloat.add PrimFloat.mul of_days rate.

(** The running sum of line 175 from zero, at [v] percent, from the date
    [l] over the ends [ends]. *)
Definition accrual (v l : Z) (ends : list Z) : float :=
  accrual_in arith (fte_of v) PrimFloat.zero l ends.

(** The rational a finite binary64 number stands for. *)
Definition value (x : float) : option Q :=
  match Prim2SF x with
  | S754_zero _ => Some 0%Q
  | S754_finite s m e =>
      let z := if s then Z.neg m else Z.pos m in
      Some (if 0 <=? e then inject_Z (z * 2 ^ e)
            else Qmake z (Z.to_pos (2 ^ (- e))))
  | _ => None
  end.

(** Equal, or next to each other in binary64. *)
Definition adjacent (x y : float) : bool :=
  PrimFloat.eqb x y || PrimFloat.eqb x (PrimFloat.next_up y)
  || PrimFloat.eqb x (PrimFloat.next_down y).

(** [x] is within [c] times 2^-53 of the rational [q], relatively. *)
Definition within (c : Z) (x : float) (q : Q) : bool :=
  match value x with
  | Some r => Qle_bool (Qabs (r - q) * inject_Z (2 ^ 53)) (inject_Z c * Qabs q)
  | None => false
  end.

End Binary64.

(** Sample calendars. *)
Module Sample.

Local Open Scope string_scope.

Definition jan (d : Z) : Z := Date.ymd 2024 1 d.

Definition holidays : gmap Z string := {[ jan 1 := "New Year" ]}.

Definition start100 := mkEvent "Employee start date" "" (jan 1) (jan 2).
Definition start10 := mkEvent "Employee start date 10%" "" (jan 1) (jan 2).
Definition start00 := mkEvent "Employee start date 00%" "" (jan 1) (jan 2).
Definition start01 := mkEvent "Employee start date 01%" "" (jan 1) (jan 2).
Definition restart100 :=
  mkEvent "Employee start date" "back to 100 %" (jan 2) (jan 31).
Definition week := mkEvent "vacation" "" (jan 8) (jan 12).
Definition fortnight := mkEvent "Vacation" "" (jan 8) (jan 20).
Definition inside := mkEvent "holiday" "" (jan 9) (jan 10).
Definition overlap := mkEvent "holiday" "" (jan 17) (jan 25).
Definition halfday := mkEvent "Half day vacation" "" (jan 8) (jan 9).
Definition dentist := mkEvent "Dentist" "" (jan 8) (jan 9).
Definition lunch := mkEvent "Team lunch" "" (jan 3) (jan 4).

(** A holiday calendar with an entry that has no label: 2024-01-02, a
    Tuesday. *)
Definition unnamed : gmap Z string := {[ jan 2 := "" ]}.

(** The index [main] builds for a January of events. *)
Definition workdays : gmap Z Z := build_workdays holidays (jan 1) (jan 31).

End Sample.

(** ** Civil dates and the date strings of the calendar *)

Module Civil.

(** [isLeap] of package [time]. *)
Definition is_leap (y : Z) : bool :=
  (y mod 4 =? 0) && (negb (y mod 100 =? 0) || (y mod 400 =? 0)).

(** [daysIn] of package [time]. *)
Definition daysIn (m y : Z) : Z :=
  if m =? 2 then (if is_leap y then 29 else 28)
  else if (m =? 4) || (m =? 6) || (m =? 9) || (m =? 11) then 30
  else 31.

(** A year, a month and a day of that month. *)
Definition valid (y m d : Z) : bool :=
  (1 <=? m) && (m <=? 12) && (1 <=? d) && (d <=? daysIn m y).

(** [Time.Date]: year, month and day of a day number. *)
Definition civil (t : Z) : Z * Z * Z :=
  let z := t + 306 in
  let era := z / 146097 in
  let doe := z - era * 146097 in
  let yoe := (doe - doe / 1460 + doe / 36524 - doe / 146096) / 365 in
  let doy := doe - (365 * yoe + yoe / 4 - yoe / 100) in
  let mp := (5 * doy + 2) / 153 in
  let m := if mp <? 10 then mp + 3 else mp - 9 in
  (yoe + era * 400 + (if m <=? 2 then 1 else 0), m,
   doy - (153 * mp + 2) / 5 + 1).

(** [Time.Year] *)
Definition Year (t : Z) : Z := fst (fst (civil t)).

Definition digit_char (n : Z) : ascii := ascii_of_N (Z.to_N (48 + n)).

(** The decimal digits of [u], most significant first, before [acc]. *)
Fixpoint decimal (fuel : nat) (u : Z) (acc : string) : string :=
  match fuel with
  | O => acc
  | S fuel' =>
      let acc' := String (digit_char (u mod 10)) acc in
      if u / 10 =? 0 then acc' else decimal fuel' (u / 10) acc'
  end.

Fixpoint zeros (k : nat) (s : string) : string :=
  match k with O => s | S k' => String "0"%char (zeros k' s) end.

(** [appendInt] of package [time]: [x] in decimal, with a sign when
    negative, padded with zeros to [width] digits. *)
Definition appendInt (x width : Z) : string :=
  let u := Z.abs x in
  let ds := decimal (S (Z.to_nat (Z.log2 u))) u EmptyString in
  let padded := zeros (Z.to_nat (width - Z.of_nat (String.length ds))) ds in
  if x <? 0 then String "-"%char padded else padded.

(** [t.Format("2006-01-02")] *)
Definition Format (t : Z) : string :=
  let '(y, m, d) := civil t in
  String.append (appendInt y 4)
    (String "-"%char (String.append (appendInt m 2)
       (String "-"%char (appendInt d 2)))).

(** [getnum(s, true)] of package [time]: two digits. *)
Definition getnum (s : string) : option (Z * string) :=
  match s with
  | String a (String b r) =>
      match Re.digit_val a, Re.digit_val b with
      | Some x, Some y => Some (10 * x + y, r)
      | _, _ => None
      end
  | _ => None
  end.

(** [time.Parse("2006-01-02", s)]: four digits of year, two of month, two
    of day, hyphens between, nothing after; the month from 1 to 12 and the
    day one of that month.  [None] is an error. *)
Definition Parse (s : string) : option Z :=
  match getnum s with
  | Some (c, s1) =>
      match getnum s1 with
      | Some (y, String "-" s2) =>
          match getnum s2 with
          | Some (m, String "-" s3) =>
              match getnum s3 with
              | Some (d, EmptyString) =>
                  if valid (100 * c + y) m d
                  then Some (Date.ymd (100 * c + y) m d)
                  else None
              | _ => None
              end
          | _ => None
          end
      | _ => None
      end
  | None => None
  end.

(** [s < t] on Go strings: byte by byte. *)
Fixpoint less (s t : string) : bool :=
  match s, t with
  | _, EmptyString => false
  | EmptyString, String _ _ => true
  | String a s', String b t' =>
      if (N_of_ascii a <? N_of_ascii b)%N then true
      else if (N_of_ascii a =? N_of_ascii b)%N then less s' t'
      else false
  end.

End Civil.

(** [f] holds of the [k] integers from [t] on. *)
Fixpoint all_from (k : nat) (t : Z) (f : Z -> bool) : bool :=
  match k with
  | O => true
  | S k' => f t && all_from k' (t + 1) f
  end.

(** The checks made of one period of the calendar, day by day and year by
    year. *)
Definition day_check (t : Z) : bool :=
  let '(y, m, d) := Civil.civil t in
  Civil.valid y m d && (Date.ymd y m d =? t).

Definition month_check (y m : Z) : bool :=
  Date.ymd y (m + 1) 1 =? Date.ymd y m 1 + Civil.daysIn m y.

Definition year_check (y : Z) : bool :=
  all_from 11 1 (month_check y)
  && (Date.ymd (y + 1) 1 1 =? Date.ymd y 12 1 + 31)
  && (Date.ymd (y + 1) 1 1
      =? Date.ymd y 1 1 + (if Civil.is_leap y then 366 else 365)).

(** Two decimal digits, as a date string has them. *)
Definition pad2 (n : Z) (rest : string) : string :=
  String (Civil.digit_char (n / 10)) (String (Civil.digit_char (n mod 10)) rest).

(** The text "CCYY-MM-DD". *)
Definition date_text (c y m d : Z) : string :=
  pad2 c (pad2 y (String "-"%char (pad2 m (String "-"%char (pad2 d EmptyString))))).

Definition pad_check (n : Z) : bool :=
  String.eqb (Civil.appendInt n 4) (pad2 (n / 100) (pad2 (n mod 100) EmptyString))
  && (if n <? 100 then String.eqb (Civil.appendInt n 2) (pad2 n EmptyString)
      else true).

(** ** Events as the calendar service returns them *)

Module Api.

(** [calendar.EventDateTime]: [Date] for an all-day event, [DateTime]
    otherwise. *)
Record EventDateTime : Type := mkDateTime {
  Date : string;
  DateTime : string
}.

(** [calendar.Event]; a missing [Start] or [End] is a nil pointer. *)
Record Event : Type := mkEvent {
  Start : option EventDateTime;
  End_ : option EventDateTime;
  Summary : string;
  Description : string
}.

End Api.

(** [mustDate], lines 313-319; [None] is the panic. *)
Definition mustDate (edt : Api.EventDateTime) : option Z :=
  Civil.Parse (Api.Date edt).

(** [dateSpan], lines 321-331, of an event with both dates; [None] is the
    error. *)
Definition dateSpan (s e : Api.EventDateTime) : option (Z * Z) :=
  match Civil.Parse (Api.Date s) with
  | Some b =>
      match Civil.Parse (Api.Date e) with
      | Some e' => Some (b, e')
      | None => None
      end
  | None => None
  end.

(** The body of the loop over [events.Items], lines 281-296: whether the
    item is appended to [r]. *)
Definition all_day (i : Api.Event) : bool :=
  match Api.Start i, Api.End_ i with
  | Some s, Some e =>
      String.eqb (Api.DateTime s) EmptyString && Re.matched (dateSpan s e)
  | _, _ => false
  end.

(** [r] when the pages are read, before it is sorted. *)
Definition listed (pages : list (list Api.Event)) : list Api.Event :=
  List.filter all_day (concat pages).

(** [byStartDate.Less], line 311, on two events with a start. *)
Definition Less (a b : Api.Event) : bool :=
  match Api.Start a, Api.Start b with
  | Some s, Some t => Civil.less (Api.Date s) (Api.Date t)
  | _, _ => false
  end.

(** The event as [main] reads it, its dates through [mustDate]. *)
Definition to_event (i : Api.Event) : option Event :=
  match Api.Start i, Api.End_ i with
  | Some s, Some e =>
      match mustDate s, mustDate e with
      | Some b, Some e' =>
          Some (mkEvent (Api.Summary i) (Api.Description i) b e')
      | _, _ => None
      end
  | _, _ => None
  end.

(** ** [getPublicHolidays], lines 357-380 *)

Definition KANTON : string := "Zurich".

(** [strings.Contains] *)
Definition Contains (s substr : string) : bool :=
  Re.search (String.prefix substr) s.

(** Line 363: a holiday of some place that is not the canton. *)
Definition elsewhere (ev : Event) : bool :=
  Contains (Description ev) "holiday in"
  && negb (Contains (Description ev) KANTON).

(** Lines 373-375: [k] days from [d] on get the label. *)
Fixpoint mark (label : string) (k : nat) (d : Z) (r : gmap Z string)
  : gmap Z string :=
  match k with
  | O => r
  | S k' => mark label k' (d + 1) (<[d := label]> r)
  end.

Definition getPublicHolidays (events : list Event) : gmap Z string :=
  fold_left
    (fun r ev =>
       if elsewhere ev then r
       else mark (Summary ev) (Z.to_nat (End_ ev - Start ev)) (Start ev) r)
    events ∅.

(** A marker that puts the day [d] in the holiday map. *)
Definition marks (d : Z) (ev : Event) : Prop :=
  elsewhere ev = false /\ Start ev <= d < End_ ev.

(** ** [updateEvent], lines 250-269, once the balance line is rendered *)

(** The description sent to [Events.Patch]; [None] when nothing is sent. *)
Definition updateEvent (noUpdate : bool) (description balanceline : string)
  : option string :=
  if noUpdate then None
  else
    let newDescr := Notes.merge description balanceline in
    if String.eqb newDescr description then None else Some newDescr.

(** ** The projection to the end of the year, lines 236-242 *)

Definition nsPerSecond : Z := 10 ^ 9.
Definition nsPerDay : Z := 24 * 3600 * nsPerSecond.

(** [zone] is the offset of [now.Location()] at the first of January, in
    seconds east of UTC.  The result is [accruedEoy] and the balance
    printed; [None] when no vacation was processed. *)
Definition projection (zone : Z) (st : Ledger) : option (Q * Q) :=
  match lastVacationDate st with
  | None => None
  | Some last =>
      let y := Civil.Year last in
      let eoy := Date.ymd (y + 1) 1 1 * 86400 - zone in
      let days := Z.quot ((eoy - last * 86400) * nsPerSecond) nsPerDay in
      let accruedEoy :=
        (accrued st + fte st * HolidaysPerCalendarDay * inject_Z days)%Q in
      Some (accruedEoy, (accruedEoy - spent st)%Q)
  end.

(** The markers that are not ignored. *)
Definition recognized (events : list Event) : list Event :=
  List.filter (fun ev => match classify ev with
                         | Ignored => false
                         | _ => true
                         end) events.

(** Sample items of the calendar service. *)
Module ApiSample.

Local Open Scope string_scope.

Definition allday (s e : string) (summary : string) : Api.Event :=
  Api.mkEvent (Some (Api.mkDateTime s "")) (Some (Api.mkDateTime e ""))
    summary "".

Definition skiing := allday "2024-01-08" "2024-01-12" "vacation".
Definition started := allday "2023-12-31" "2024-01-01" "Employee start date".
Definition meeting :=
  Api.mkEvent (Some (Api.mkDateTime "" "2024-01-09T10:00:00+01:00"))
    (Some (Api.mkDateTime "" "2024-01-09T11:00:00+01:00")) "Meeting" "".
Definition broken := allday "2024-02-30" "2024-03-01" "vacation".

Definition pages : list (list Api.Event) :=
  [[skiing; meeting]; [broken; started]].

End ApiSample.

(** Accrual has begun whenever a start date is set. *)
Definition started (st : Ledger) : Prop :=
  lastDate st = None -> Date.IsZero (startDate st) = true.

(** A start date is set and accrual has begun. *)
Definition employed (st : Ledger) : Prop :=
  Date.IsZero (startDate st) = false /\ lastDate st <> None.


(** Sample events of the holiday calendar. *)
Module HolidaySample.

Local Open Scope string_scope.

Definition newyear :=
  mkEvent "New Year's Day" "Public holiday" (Sample.jan 1) (Sample.jan 2).
Definition berchtold :=
  mkEvent "Berchtold Day" "Public holiday in Zurich, Bern"
    (Sample.jan 2) (Sample.jan 3).
Definition epiphany :=
  mkEvent "Epiphany" "Public holiday in Schwyz, Ticino, Uri"
    (Sample.jan 6) (Sample.jan 7).

Definition events : list Event := [newyear; berchtold; epiphany].

End HolidaySample.

(** The text with its ASCII capitals made small. *)
Fixpoint lower (s : string) : string :=
  match s with
  | EmptyString => EmptyString
  | String c r => String (Re.to_lower c) (lower r)
  end.

(** What making a byte small keeps: checked byte by byte. *)
Definition lower_check (c : ascii) : bool :=
  Ascii.eqb (Re.to_lower (Re.to_lower c)) (Re.to_lower c)
  && Bool.eqb (Re.is_space (Re.to_lower c)) (Re.is_space c)
  && forallb (fun x => Bool.eqb (Ascii.eqb (Re.to_lower c) x) (Ascii.eqb c x))
       ["197"; "191"; "226"; "132"; "170"]%char.

(** The three digits [n] before a percent sign, as [rePercent] reads
    them. *)
Definition percent_check (n : Z) : bool :=
  let text := String (Civil.digit_char (n / 100))
                (pad2 (n mod 100) (String "%"%char EmptyString)) in
  match Re.rePercent text with
  | Some g =>
      String.eqb g (if n =? 100 then "100"%string
                    else pad2 (n mod 100) EmptyString)
  | None => false
  end.

(** ** Durations *)




(** Markers to cut ten days of accrual with. *)
Module AccrualSample.

Local Open Scope string_scope.

Definition lunch := mkEvent "Team lunch" "" (Sample.jan 1) (Sample.jan 2).
Definition dentist := mkEvent "Dentist" "" (Sample.jan 10) (Sample.jan 11).


End AccrualSample.

(** A marker that is no vacation booking and leaves the employment
    started: an ignored marker, or a start marker whose start is not the
    zero date, which [startDate] reads as unset. *)
Definition no_booking (ev : Event) : Prop :=
  classify ev = Ignored \/
  (classify ev = EmploymentStart /\ Date.IsZero (Start ev) = false).

(** Calendars of overlapping bookings in January 2024, in the order of
    their starts. *)
Module OverlapSample.

Local Open Scope string_scope.

Definition early := mkEvent "vacation" "" (Sample.jan 3) (Sample.jan 10).
Definition long := mkEvent "vacation" "" (Sample.jan 10) (Sample.jan 23).
Definition halftime :=
  mkEvent "Employee start date 50%" "" (Sample.jan 15) (Sample.jan 16).

(** An earlier booking reaches into the first of the two. *)
Definition earlier : list Event :=
  [Sample.start100; early; Sample.fortnight; Sample.overlap].

(** A third booking starts between the two and ends between their ends. *)
Definition between : list Event :=
  [Sample.start100; Sample.fortnight; long; Sample.overlap].

(** A booking inside the first one lies between the two. *)
Definition covered : list Event :=
  [Sample.start100; Sample.fortnight; Sample.inside; Sample.overlap].

(** The days off of the snapshots of a calendar, by span. *)
Definition days_off (events : list Event) : list (Z * Z * Q) :=
  map (fun u => (Start (u_ev u), End_ (u_ev u), u_daysOff u))
      (log_after Sample.holidays events).

End OverlapSample.

(** * Properties *)

(** ** The percentage of a start marker *)

Section Percent.

Import Re.

Lemma digit_val_range (c : ascii) (d : Z) :
  digit_val c = Some d -> 0 <= d <= 9.
Proof.
  unfold digit_val.
  destruct (Z.leb_spec 48 (Z.of_N (N_of_ascii c)));
    destruct (Z.leb_spec (Z.of_N (N_of_ascii c)) 57); cbn [andb];
    intros [= <-]; lia.
Qed.

(** [Atoi] of two decimal digits. *)
Lemma Atoi_two_digits (c1 c2 : ascii) (d1 d2 : Z) :
  digit_val c1 = Some d1 -> digit_val c2 = Some d2 ->
  Atoi (String c1 (String c2 EmptyString)) = Some (10 * d1 + d2).
Proof.
  intros H1 H2.
  pose proof (digit_val_range _ _ H1) as R1.
  pose proof (digit_val_range _ _ H2) as R2.
  assert (Hparse : Atoi (String c1 (String c2 EmptyString))
                   = match digits (String c1 (String c2 EmptyString)) 0 with
                     | Some n =>
                         if (- 2 ^ 63 <=? n) && (n <=? 2 ^ 63 - 1)
                         then Some n else None
                     | None => None
                     end).
  { destruct c1 as [[] [] [] [] [] [] [] []]; vm_compute in H1;
      try discriminate H1; reflexivity. }
  rewrite Hparse. cbn [digits]. rewrite H1, H2.
  replace (10 * (10 * 0 + d1) + d2) with (10 * d1 + d2) by lia.
  assert (E1 : (- 2 ^ 63 <=? 10 * d1 + d2) = true) by (apply Z.leb_le; lia).
  assert (E2 : (10 * d1 + d2 <=? 2 ^ 63 - 1) = true) by (apply Z.leb_le; lia).
  rewrite E1, E2. reflexivity.
Qed.

Lemma percent_at_Atoi (s g : string) :
  percent_at s = Some g -> exists v, Atoi g = Some v /\ 0 <= v <= 100.
Proof.
  unfold percent_at.
  destruct s as [|c1 [|c2 r]]; try discriminate.
  destruct (is_digit c1 && is_digit c2 && percent_tail r) eqn:E.
  - intros [= <-].
    apply andb_prop in E as [E _]. apply andb_prop in E as [E1 E2].
    unfold is_digit in E1, E2.
    destruct (digit_val c1) as [d1|] eqn:H1; [|discriminate].
    destruct (digit_val c2) as [d2|] eqn:H2; [|discriminate].
    exists (10 * d1 + d2). split.
    + now apply Atoi_two_digits.
    + apply digit_val_range in H1, H2. lia.
  - intros H. exists 100. split; [|lia].
    assert (g = "100"%string) as ->.
    { destruct (Ascii.eqb_spec c1 "1"); [subst c1|].
      2:{ destruct c1 as [[] [] [] [] [] [] [] []]; try discriminate H.
          now contradict n. }
      destruct (Ascii.eqb_spec c2 "0"); [subst c2|].
      2:{ destruct c2 as [[] [] [] [] [] [] [] []]; try discriminate H.
          now contradict n. }
      destruct r as [|c3 r']; [discriminate H|].
      destruct (Ascii.eqb_spec c3 "0"); [subst c3|].
      2:{ destruct c3 as [[] [] [] [] [] [] [] []]; try discriminate H.
          now contradict n. }
      destruct (percent_tail r'); [|discriminate H].
      now injection H as <-. }
    reflexivity.
Qed.

(** Group 1 of a match of [rePercent] always converts, to a number from
    0 to 100. *)
Lemma rePercent_Atoi (s g : string) :
  rePercent s = Some g -> exists v, Atoi g = Some v /\ 0 <= v <= 100.
Proof.
  induction s as [|c r IH]; cbn [rePercent].
  - destruct (percent_at EmptyString) eqn:E; [|discriminate].
    intros [= <-]. eapply percent_at_Atoi, E.
  - destruct (percent_at (String c r)) eqn:E.
    + intros [= <-]. eapply percent_at_Atoi, E.
    + exact IH.
Qed.

End Percent.

(** What a start marker makes of [fte]: a matched percentage [v] from 0 to
    100 gives [v / 100], no match gives 1.  The branch that would keep the
    current value is never taken. *)
Lemma start_fte_cases (cur : Q) (ev : Event) :
  start_fte cur ev = 1%Q \/
  exists v, 0 <= v <= 100 /\ start_fte cur ev = (inject_Z v / 100)%Q.
Proof.
  unfold start_fte.
  destruct (Re.rePercent (Summary ev)) as [g|] eqn:E1.
  - destruct (rePercent_Atoi _ _ E1) as (v & -> & Hv).
    right. exists v. split; [exact Hv|].
    destruct (Z.leb_spec v 100); [reflexivity | lia].
  - destruct (Re.rePercent (Description ev)) as [g|] eqn:E2.
    + destruct (rePercent_Atoi _ _ E2) as (v & -> & Hv).
      right. exists v. split; [exact Hv|].
      destruct (Z.leb_spec v 100); [reflexivity | lia].
    + now left.
Qed.

Lemma start_fte_indep (c1 c2 : Q) (ev : Event) :
  start_fte c1 ev = start_fte c2 ev.
Proof.
  unfold start_fte.
  destruct (Re.rePercent (Summary ev)) as [g|] eqn:E1.
  - destruct (rePercent_Atoi _ _ E1) as (v & -> & Hv).
    destruct (Z.leb_spec v 100); [reflexivity | lia].
  - destruct (Re.rePercent (Description ev)) as [g|] eqn:E2; [|reflexivity].
    destruct (rePercent_Atoi _ _ E2) as (v & -> & Hv).
    destruct (Z.leb_spec v 100); [reflexivity | lia].
Qed.

Lemma percent_range (v : Z) :
  0 <= v <= 100 -> (0 <= inject_Z v / 100 <= 1)%Q.
Proof.
  intros [H0 H1]. unfold Qdiv, Qle, Qmult, Qinv, inject_Z. simpl. lia.
Qed.

Lemma start_fte_range (cur : Q) (ev : Event) :
  (0 <= start_fte cur ev <= 1)%Q.
Proof.
  destruct (start_fte_cases cur ev) as [-> | (v & Hv & ->)].
  - split; discriminate.
  - now apply percent_range.
Qed.

(** ** The model on concrete inputs *)

Example Date_ymd_zero : Date.ymd 1 1 1 = 0.
Proof. reflexivity. Qed.

Example Date_monday : Date.Weekday (Date.ymd 2024 1 1) = 1.
Proof. reflexivity. Qed.

Example reStartDay_ex :
  Re.reStartDay "Employee  Start Date 80%" = true /\
  Re.reStartDay "first day" = false /\
  Re.reVacation "Summer HOLIDAY" = true /\
  Re.reHalfDay "vacation (half day)" = true /\
  Re.rePercent "about 150 % of it" = Some "50"%string /\
  Re.rePercent "100%" = Some "100"%string /\
  Re.rePercent "7%" = None.
Proof. repeat split; reflexivity. Qed.

(** The scenario of the specification: start on 2024-01-01 at 100%, New
    Year a public holiday, vacation from 2024-01-08 to 2024-01-12. *)
Example main_scenario :
  map (fun u => (u_daysOff u, u_effDaysOff u, Qred (u_accrued u), u_spent u))
      (log_after Sample.holidays [Sample.start100; Sample.week])
  = [(0, 0, 0, 0); (4, 4, 55 # 73, 4)]%Q.
Proof. vm_compute. reflexivity. Qed.


(** ** Classification and the accrual step *)

Lemma classify_start (ev : Event) :
  classify ev = EmploymentStart <-> Re.reStartDay (Summary ev) = true.
Proof.
  unfold classify. destruct (Re.reStartDay (Summary ev)); [tauto|].
  destruct (Re.reVacation (Summary ev)); split; discriminate.
Qed.

Lemma classify_vacation (ev : Event) :
  classify ev = VacationBooking <->
  Re.reStartDay (Summary ev) = false /\ Re.reVacation (Summary ev) = true.
Proof.
  unfold classify. destruct (Re.reStartDay (Summary ev)).
  - split; [discriminate | intros [? _]; discriminate].
  - destruct (Re.reVacation (Summary ev)); split; try tauto; try discriminate.
    intros [_ ?]; discriminate.
Qed.

Lemma classify_ignored (ev : Event) :
  classify ev = Ignored <->
  Re.reStartDay (Summary ev) = false /\ Re.reVacation (Summary ev) = false.
Proof.
  unfold classify. destruct (Re.reStartDay (Summary ev)).
  - split; [discriminate | intros [? _]; discriminate].
  - destruct (Re.reVacation (Summary ev)); split; try tauto; try discriminate.
    intros [_ ?]; discriminate.
Qed.

(** The loop body, by kind of marker. *)
Lemma loop_body_start workdays st ev :
  classify ev = EmploymentStart ->
  loop_body workdays st ev = on_start (accrue st ev) ev.
Proof. intros H%classify_start. unfold loop_body. now rewrite H. Qed.

Lemma loop_body_vacation workdays st ev :
  classify ev = VacationBooking ->
  loop_body workdays st ev = on_vacation workdays (accrue st ev) ev.
Proof. intros [H1 H2]%classify_vacation. unfold loop_body. now rewrite H1, H2. Qed.

Lemma loop_body_ignored workdays st ev :
  classify ev = Ignored ->
  loop_body workdays st ev = Continue (accrue st ev) None.
Proof. intros [H1 H2]%classify_ignored. unfold loop_body. now rewrite H1, H2. Qed.

(** The accrual step touches [accrued] and [lastDate] only. *)
Lemma accrue_frame st ev :
  startDate (accrue st ev) = startDate st /\
  fte (accrue st ev) = fte st /\
  spent (accrue st ev) = spent st /\
  lastVacationDate (accrue st ev) = lastVacationDate st.
Proof. unfold accrue. destruct (lastDate st); repeat split; reflexivity. Qed.

Lemma accrue_unset st ev : lastDate st = None -> accrue st ev = st.
Proof. unfold accrue. now intros ->. Qed.

Lemma accrue_set st ev l :
  lastDate st = Some l ->
  lastDate (accrue st ev) = Some (End_ ev) /\
  accrued (accrue st ev)
  = (accrued st + fte st * HolidaysPerCalendarDay * inject_Z (End_ ev - l))%Q.
Proof. unfold accrue. intros ->. split; reflexivity. Qed.

(** After the accrual step the test of line 208 compares the end of the
    event with itself: the branch that skips a vacation is never taken. *)
Lemma on_vacation_after_accrue workdays st ev l :
  lastDate st = Some l ->
  Date.IsZero (startDate st) = false ->
  exists u,
    on_vacation workdays (accrue st ev) ev
    = Continue
        {| startDate := startDate st;
           lastDate := Some (End_ ev);
           lastVacationDate := Some (End_ ev);
           fte := fte st;
           accrued := accrued (accrue st ev);
           spent := spent st + u_effDaysOff u |} (Some u) /\
    Start (u_ev u) = patched_start st ev /\
    End_ (u_ev u) = End_ ev /\
    u_daysOff u
    = inject_Z (wd workdays (End_ ev) - wd workdays (patched_start st ev)) /\
    u_effDaysOff u
    = effective (fte st)
        (inject_Z (End_ ev - patched_start st ev))
        (u_daysOff u) (Re.reHalfDay (Summary ev)).
Proof.
  intros Hl Hz.
  set (s := patched_start st ev).
  set (daysOff := inject_Z (wd workdays (End_ ev) - wd workdays s)).
  set (eff := effective (fte st) (inject_Z (End_ ev - s)) daysOff
                (Re.reHalfDay (Summary ev))).
  exists (mkUpdate (mkEvent (Summary ev) (Description ev) s (End_ ev))
            daysOff eff (accrued (accrue st ev)) (spent st + eff)).
  split; [|repeat split; reflexivity].
  unfold on_vacation, accrue. rewrite Hl. cbn.
  rewrite Hz, Z.ltb_irrefl. reflexivity.
Qed.

(** A property of the ledger kept by every loop body holds of the ledger
    the run ends with, abort or not. *)
Lemma run_invariant (P : Ledger -> Prop) workdays :
  (forall st ev, P st ->
     match loop_body workdays st ev with
     | Continue st' _ => P st'
     | Abort _ st' => P st'
     end) ->
  forall events st log, P st -> P (ledger_of (run workdays st log events)).
Proof.
  intros Hstep events. induction events as [|ev rest IH]; intros st log HP.
  - exact HP.
  - cbn [run]. specialize (Hstep st ev HP).
    destruct (loop_body workdays st ev) as [st' out | why st'].
    + now apply IH.
    + exact Hstep.
Qed.

Lemma on_vacation_fte workdays st ev :
  match on_vacation workdays st ev with
  | Continue st' _ => fte st' = fte st
  | Abort _ st' => st' = st
  end.
Proof.
  unfold on_vacation. destruct (Date.IsZero (startDate st)); [reflexivity|].
  destruct (lastDate st) as [l|]; [|reflexivity].
  destruct (End_ ev <? l); reflexivity.
Qed.

Lemma loop_body_fte_range workdays st ev :
  (0 <= fte st <= 1)%Q ->
  match loop_body workdays st ev with
  | Continue st' _ => (0 <= fte st' <= 1)%Q
  | Abort _ st' => (0 <= fte st' <= 1)%Q
  end.
Proof.
  intros H. unfold loop_body.
  destruct (accrue_frame st ev) as (_ & Hf & _).
  destruct (Re.reStartDay (Summary ev)).
  - cbn. apply start_fte_range.
  - destruct (Re.reVacation (Summary ev)).
    + pose proof (on_vacation_fte workdays (accrue st ev) ev) as Hv.
      destruct (on_vacation workdays (accrue st ev) ev).
      * now rewrite Hv, Hf.
      * subst st0. now rewrite Hf.
    + now rewrite Hf.
Qed.

(** ** C7: the range of [fte] *)

(** C7, as stated, fails: [fte] starts at 0, the zero value of the
    variable, and a start marker that says 00% sets it to 0. *)
Lemma fte_zero_counterexample :
  ~ (0 < fte init)%Q /\
  classify Sample.start00 = EmploymentStart /\
  ~ (0 < fte (ledger_after Sample.holidays [Sample.start00]))%Q.
Proof. repeat split; vm_compute; congruence. Qed.

(** C7, amended: at every point of processing [fte] lies in [0, 1].  It is
    0 before the first start marker; every start marker sets it to 1 when
    neither summary nor description has a percentage, and to [v / 100] for
    the matched percentage [v], a number from 0 to 100. *)
Theorem fte_in_unit_interval :
  fte init = 0%Q /\
  (forall cur ev,
     start_fte cur ev = 1%Q \/
     exists v, 0 <= v <= 100 /\ start_fte cur ev = (inject_Z v / 100)%Q) /\
  (forall workdays st ev,
     classify ev = EmploymentStart ->
     exists st' out,
       loop_body workdays st ev = Continue st' out /\
       fte st' = start_fte (fte st) ev /\ (0 <= fte st' <= 1)%Q) /\
  (forall workdays events,
     (0 <= fte (ledger_of (run workdays init [] events)) <= 1)%Q).
Proof.
  split; [reflexivity|]. split; [apply start_fte_cases|]. split.
  - intros workdays st ev H. rewrite (loop_body_start _ _ _ H).
    do 2 eexists. split; [reflexivity|]. cbn.
    destruct (accrue_frame st ev) as (_ & -> & _).
    split; [reflexivity | apply start_fte_range].
  - intros workdays events.
    apply (run_invariant (fun st => (0 <= fte st <= 1)%Q)).
    + apply loop_body_fte_range.
    + split; discriminate.
Qed.

Lemma fte_in_unit_interval_witness :
  (exists st' out,
     loop_body Sample.workdays init Sample.start10 = Continue st' out /\
     fte st' = start_fte (fte init) Sample.start10 /\
     (0 <= fte st' <= 1)%Q) /\
  (0 <= fte (ledger_of (run Sample.workdays init []
                          [Sample.start10; Sample.halfday])) <= 1)%Q.
Proof.
  destruct fte_in_unit_interval as (_ & _ & Hstart & Hrun). split.
  - apply Hstart. reflexivity.
  - apply Hrun.
Defined.

(** ** C9: a vacation marker before any start marker *)

Lemma run_ignored_unset workdays st log pre rest :
  lastDate st = None ->
  Forall (fun e => classify e = Ignored) pre ->
  run workdays st log (pre ++ rest) = run workdays st log rest.
Proof.
  intros Hl Hpre. induction Hpre as [|e pre He _ IH]; [reflexivity|].
  cbn [app run]. rewrite (loop_body_ignored _ _ _ He), (accrue_unset _ _ Hl).
  cbn [emitted]. now rewrite app_nil_r.
Qed.

(** C9: when a vacation marker comes while no start marker has been
    classified yet, the run aborts on the missing start date, and the
    ledger at the abort is the initial one: the marker has changed no
    field and no snapshot was emitted. *)
Theorem vacation_before_start_aborts workdays pre ev post :
  Forall (fun e => classify e = Ignored) pre ->
  classify ev = VacationBooking ->
  run workdays init [] (pre ++ ev :: post) = Aborted NoStartDate init [].
Proof.
  intros Hpre Hev. rewrite run_ignored_unset by (reflexivity || assumption).
  cbn [run]. rewrite (loop_body_vacation _ _ _ Hev). reflexivity.
Qed.

Lemma vacation_before_start_aborts_witness :
  run Sample.workdays init []
      ([Sample.lunch] ++ Sample.week :: [Sample.start100])
  = Aborted NoStartDate init [].
Proof.
  apply vacation_before_start_aborts.
  - repeat constructor.
  - reflexivity.
Defined.

(** ** C4: an ignored marker *)




(** ** C2: the half day *)

Lemma patched_start_ge st ev : Start ev <= patched_start st ev.
Proof.
  unfold patched_start. destruct (lastVacationDate st) as [lv|]; [|lia].
  destruct (Z.ltb_spec (Start ev) lv); lia.
Qed.

(** A span of at most one calendar day with the half-day hint counts one
    half when five times the fraction exceeds the span. *)
Lemma effective_half (f : Q) (n : Z) (daysOff : Q) :
  n <= 1 -> (1 < 5 * f)%Q ->
  effective f (inject_Z n) daysOff true = 1 # 2.
Proof.
  intros Hn Hf. unfold effective.
  assert (Hq : (inject_Z n <= 1)%Q).
  { change 1%Q with (inject_Z 1). now rewrite <- Zle_Qle. }
  destruct (Qle_bool (5 * f) (inject_Z n)) eqn:E1.
  - apply Qle_bool_iff in E1. lra.
  - destruct (Qle_bool (101 # 100) (inject_Z n)) eqn:E2; [|reflexivity].
    apply Qle_bool_iff in E2. lra.
Qed.

(** X23: for every percentage from 0 to 100 and every span from 0 to 7
    days the two tests give in binary64 what they give on the rationals: no
    rounding of [float64(v) / 100] or of its product by 5 moves a
    threshold. *)
Lemma tests_binary64 :
  forallb (fun v =>
    forallb (fun n =>
      Bool.eqb (Binary64.prorated v n)
               (Qle_bool (5 * (inject_Z v / 100)) (inject_Z n))
      && Bool.eqb (Binary64.short n)
                  (negb (Qle_bool (101 # 100) (inject_Z n))))
      (Binary64.upto 8))
    (Binary64.upto 101) = true.
Proof. vm_compute. reflexivity. Qed.

(** C2, as stated, fails: at 10% a one-day booking with the half-day hint
    is pro-rated, one tenth of its working day is deducted. *)
Lemma half_day_counterexample :
  let events := [Sample.start10; Sample.halfday] in
  classify Sample.halfday = VacationBooking /\
  Re.reHalfDay (Summary Sample.halfday) = true /\
  End_ Sample.halfday = Start Sample.halfday + 1 /\
  fte (ledger_after Sample.holidays events) == 1 # 10 /\
  map (fun u => Qred (u_effDaysOff u)) (log_after Sample.holidays events)
  = [0%Q; (1 # 10)%Q] /\
  ~ spent (ledger_after Sample.holidays events) == 1 # 2.
Proof. repeat split; vm_compute; congruence. Qed.

(** C2, amended: a vacation booking of one calendar day whose summary has
    the half-day hint deducts 0.5 for every [fte] above one fifth, the
    values for which one day is less than [5 * fte]. *)
Theorem half_day_deducts_half workdays st ev l :
  classify ev = VacationBooking ->
  Re.reHalfDay (Summary ev) = true ->
  End_ ev = Start ev + 1 ->
  Date.IsZero (startDate st) = false ->
  lastDate st = Some l ->
  (1 # 5 < fte st)%Q ->
  exists st' u,
    loop_body workdays st ev = Continue st' (Some u) /\
    u_effDaysOff u = 1 # 2 /\
    spent st' = (spent st + (1 # 2))%Q.
Proof.
  intros Hk Hh He Hz Hl Hf. rewrite (loop_body_vacation _ _ _ Hk).
  destruct (on_vacation_after_accrue workdays st ev l Hl Hz)
    as (u & -> & _ & _ & _ & Heff).
  assert (Hu : u_effDaysOff u = 1 # 2).
  { rewrite Heff, Hh. apply effective_half.
    - pose proof (patched_start_ge st ev). lia.
    - lra. }
  do 2 eexists. split; [reflexivity|]. split; [exact Hu|].
  cbn. now rewrite Hu.
Qed.

Lemma half_day_deducts_half_witness :
  exists st' u,
    loop_body Sample.workdays
      (ledger_of (run Sample.workdays init [] [Sample.start100]))
      Sample.halfday = Continue st' (Some u) /\
    u_effDaysOff u = 1 # 2.
Proof.
  destruct (half_day_deducts_half Sample.workdays
              (ledger_of (run Sample.workdays init [] [Sample.start100]))
              Sample.halfday (Sample.jan 1))
    as (st' & u & H & Hu & _).
  - reflexivity.
  - reflexivity.
  - reflexivity.
  - reflexivity.
  - reflexivity.
  - vm_compute. reflexivity.
  - exists st', u. split; assumption.
Defined.

(** ** What one loop body leaves *)

(** Whatever the marker, the ledger the loop body leaves has the [accrued]
    of the accrual step. *)
Lemma loop_body_accrued workdays st ev :
  match loop_body workdays st ev with
  | Continue st' _ => accrued st' = accrued (accrue st ev)
  | Abort _ st' => st' = accrue st ev
  end.
Proof.
  unfold loop_body. destruct (Re.reStartDay (Summary ev)); [reflexivity|].
  destruct (Re.reVacation (Summary ev)); [|reflexivity].
  unfold on_vacation.
  destruct (Date.IsZero (startDate (accrue st ev))); [reflexivity|].
  destruct (lastDate (accrue st ev)) as [l|]; [|reflexivity].
  destruct (End_ ev <? l); reflexivity.
Qed.

(** The [lastDate] the loop body leaves: the end of the marker, its start
    for the first start marker, or still unset. *)
Lemma loop_body_lastDate workdays st ev :
  let st' := match loop_body workdays st ev with
             | Continue st' _ => st'
             | Abort _ st' => st'
             end in
  lastDate st' = None \/ lastDate st' = Some (End_ ev)
  \/ lastDate st' = Some (Start ev).
Proof.
  assert (Ha : lastDate (accrue st ev) = None
               \/ lastDate (accrue st ev) = Some (End_ ev)).
  { unfold accrue. destruct (lastDate st) eqn:E; [now right | now left]. }
  unfold loop_body. destruct (Re.reStartDay (Summary ev)).
  - cbn. destruct (Date.IsZero (startDate (accrue st ev))); tauto.
  - destruct (Re.reVacation (Summary ev)); [|cbn; tauto].
    unfold on_vacation.
    destruct (Date.IsZero (startDate (accrue st ev))); [cbn; tauto|].
    destruct (lastDate (accrue st ev)) as [l|] eqn:E; [|cbn; tauto].
    destruct (End_ ev <? l); cbn; [rewrite E|]; tauto.
Qed.

(** ** C8: the sign of [accrued] *)

Lemma entitlement_nonneg (f : Q) (n : Z) :
  (0 <= f)%Q -> 0 <= n -> (0 <= f * HolidaysPerCalendarDay * inject_Z n)%Q.
Proof.
  intros Hf Hn. apply Qmult_le_0_compat; [apply Qmult_le_0_compat|].
  - exact Hf.
  - discriminate.
  - change 0%Q with (inject_Z 0). now rewrite <- Zle_Qle.
Qed.

Lemma accrue_forward st ev rest :
  forward st (ev :: rest) ->
  (accrued st <= accrued (accrue st ev))%Q.
Proof.
  intros (Hf & Ha & Hl). unfold accrue.
  destruct (lastDate st) as [l|]; [|apply Qle_refl]. cbn.
  specialize (Hl l eq_refl). inversion Hl as [|? ? Hle _]; subst.
  assert (0 <= fte st * HolidaysPerCalendarDay
               * inject_Z (Date.days l (End_ ev)))%Q.
  { apply entitlement_nonneg; [tauto | unfold Date.days; lia]. }
  lra.
Qed.

Lemma loop_body_forward workdays st ev rest :
  forward st (ev :: rest) ->
  Start ev <= End_ ev ->
  Forall (fun ev' => End_ ev <= End_ ev') rest ->
  forward match loop_body workdays st ev with
          | Continue st' _ => st'
          | Abort _ st' => st'
          end rest.
Proof.
  intros Hfw Hse Hrest.
  pose proof (accrue_forward _ _ _ Hfw) as Hacc.
  destruct Hfw as (Hf & Ha & Hl).
  pose proof (loop_body_fte_range workdays st ev Hf) as H1.
  pose proof (loop_body_accrued workdays st ev) as H2.
  pose proof (loop_body_lastDate workdays st ev) as H3. cbn zeta in H3.
  destruct (loop_body workdays st ev) as [st' out | why st'].
  - split; [exact H1|]. split; [rewrite H2; lra|].
    intros l' Hl'. rewrite Hl' in H3.
    destruct H3 as [H3 | [H3 | H3]]; [discriminate | |];
      injection H3 as ->; [exact Hrest|].
    eapply Forall_impl; [exact Hrest|]. cbn. intros; lia.
  - split; [exact H1|]. split; [subst st'; lra|].
    intros l' Hl'. rewrite Hl' in H3.
    destruct H3 as [H3 | [H3 | H3]]; [discriminate | |];
      injection H3 as ->; [exact Hrest|].
    eapply Forall_impl; [exact Hrest|]. cbn. intros; lia.
Qed.

Lemma run_forward workdays pre : forall post st log,
  forward st (pre ++ post) ->
  Forall (fun ev => Start ev <= End_ ev) (pre ++ post) ->
  ends_ascend (pre ++ post) ->
  forward (ledger_of (run workdays st log pre)) post.
Proof.
  induction pre as [|ev pre IH]; intros post st log Hfw Hwf Hasc;
    [exact Hfw|].
  cbn [app] in *. cbn [run].
  inversion Hwf as [|? ? Hse Hwf']; subst.
  destruct Hasc as [Hrest Hasc].
  pose proof (loop_body_forward workdays st ev _ Hfw Hse Hrest) as Hstep.
  destruct (loop_body workdays st ev) as [st' out | why st'].
  - now apply IH.
  - cbn. destruct Hstep as (Hf & Ha & Hl).
    split; [exact Hf|]. split; [exact Ha|].
    intros l Hl'. specialize (Hl l Hl').
    apply Forall_app in Hl. tauto.
Qed.

Lemma forward_init events : forward init events.
Proof.
  split; [split; discriminate|]. split; [discriminate|].
  intros l H. discriminate H.
Qed.

(** C8, as stated, fails: on markers in ascending order of start, an
    accrual step takes entitlement back when a marker ends before the one
    processed before it, and more than was accrued when [fte] was raised
    in between. *)
Lemma accrued_negative_counterexample :
  let events := [Sample.start01; Sample.restart100; Sample.lunch] in
  let st := ledger_after Sample.holidays
              [Sample.start01; Sample.restart100] in
  map Start events = [Sample.jan 1; Sample.jan 2; Sample.jan 3] /\
  Forall (fun ev => Start ev < End_ ev) events /\
  accrued st == 750 # 36500 /\
  accrued (accrue st Sample.lunch) == - (66750 # 36500) /\
  (accrued (ledger_after Sample.holidays events) < 0)%Q.
Proof.
  cbn zeta. split; [reflexivity|]. split; [repeat constructor|].
  repeat split; vm_compute; reflexivity.
Qed.

(** C8, amended: when no marker ends before its own start or before the
    end of a marker earlier in the sequence, every accrual step adds a
    non-negative amount and [accrued] is non-negative after every
    transition. *)
Theorem accrued_nonnegative workdays events :
  Forall (fun ev => Start ev <= End_ ev) events ->
  ends_ascend events ->
  forall pre ev post, events = pre ++ ev :: post ->
    let st := ledger_of (run workdays init [] pre) in
    (accrued st <= accrued (accrue st ev))%Q /\
    (0 <= accrued (ledger_of (run workdays init [] (pre ++ [ev]))))%Q.
Proof.
  intros Hwf Hasc pre ev post ->. cbn zeta. split.
  - eapply accrue_forward, run_forward; [apply forward_init | eassumption..].
  - assert (Hfw : forward (ledger_of (run workdays init [] (pre ++ [ev]))) post).
    { apply run_forward; rewrite <- ?app_assoc; cbn [app];
        [apply forward_init | assumption..]. }
    apply Hfw.
Qed.

Lemma accrued_nonnegative_witness :
  (0 <= accrued (ledger_of
                   (run Sample.workdays init []
                      ([Sample.start100; Sample.lunch] ++ [Sample.week]))))%Q.
Proof.
  apply (accrued_nonnegative Sample.workdays
           [Sample.start100; Sample.lunch; Sample.week; Sample.overlap]
           ltac:(repeat constructor; vm_compute; congruence)
           ltac:(cbn; repeat split; repeat constructor; vm_compute; congruence)
           [Sample.start100; Sample.lunch] Sample.week [Sample.overlap]
           eq_refl).
Defined.

(** ** C3: accrual telescopes *)

Lemma reached_cons l ev rest : reached l (ev :: rest) = reached (End_ ev) rest.
Proof.
  unfold reached. cbn [map]. generalize (End_ ev) as e.
  generalize (map End_ rest) as ends. intros ends.
  revert l. induction ends as [|x ends IH]; intros l e; [reflexivity|].
  change (List.last (e :: x :: ends) l) with (List.last (x :: ends) l).
  rewrite (IH l x), (IH e x). reflexivity.
Qed.


(** One loop body once accrual has begun, on a marker that keeps [f]. *)
Lemma loop_body_keeps workdays st ev l f :
  lastDate st = Some l ->
  Date.IsZero (startDate st) = false ->
  fte st == f ->
  keeps_fte f ev ->
  exists st' out,
    loop_body workdays st ev = Continue st' out /\
    lastDate st' = Some (End_ ev) /\
    Date.IsZero (startDate st') = false /\
    fte st' == f /\
    accrued st'
    == accrued st + f * HolidaysPerCalendarDay * inject_Z (End_ ev - l).
Proof.
  intros Hl Hz Hf Hk.
  destruct (accrue_frame st ev) as (Hs & Hfe & _).
  destruct (accrue_set st ev l Hl) as [Hl' Ha].
  assert (Hacc : accrued (accrue st ev)
                 == accrued st
                    + f * HolidaysPerCalendarDay * inject_Z (End_ ev - l)).
  { rewrite Ha, Hf. reflexivity. }
  destruct (classify ev) eqn:Hc.
  - destruct (Hk Hc) as [Hz' Hf'].
    rewrite (loop_body_start _ _ _ Hc). unfold on_start.
    rewrite Hs, Hz. do 2 eexists. split; [reflexivity|]. cbn.
    repeat split; try assumption.
    now rewrite (start_fte_indep _ f).
  - rewrite (loop_body_vacation _ _ _ Hc).
    destruct (on_vacation_after_accrue workdays st ev l Hl Hz) as (u & -> & _).
    do 2 eexists. split; [reflexivity|]. cbn. repeat split; assumption.
  - rewrite (loop_body_ignored _ _ _ Hc).
    do 2 eexists. split; [reflexivity|]. rewrite Hs, Hfe.
    repeat split; assumption.
Qed.

(** From a ledger in which accrual has begun, a run over markers that keep
    [f] completes, and [accrued] has grown by the entitlement of the days
    from [lastDate] to the date reached, however the markers cut them. *)
Lemma run_telescopes workdays f events : forall st log l,
  lastDate st = Some l ->
  Date.IsZero (startDate st) = false ->
  fte st == f ->
  Forall (keeps_fte f) events ->
  exists st' log',
    run workdays st log events = Done st' log' /\
    fte st' == f /\
    accrued st'
    == accrued st
       + f * HolidaysPerCalendarDay * inject_Z (reached l events - l).
Proof.
  induction events as [|ev rest IH]; intros st log l Hl Hz Hf Hall.
  - exists st, log. split; [reflexivity|]. split; [exact Hf|].
    unfold reached. cbn. rewrite Z.sub_diag. ring.
  - inversion Hall as [|? ? Hk Hrest]; subst.
    destruct (loop_body_keeps workdays st ev l f Hl Hz Hf Hk)
      as (st1 & out & Hstep & Hl1 & Hz1 & Hf1 & Ha1).
    destruct (IH st1 (log ++ emitted out) (End_ ev) Hl1 Hz1 Hf1 Hrest)
      as (st' & log' & Hrun & Hf' & Ha').
    exists st', log'. cbn [run]. rewrite Hstep.
    split; [exact Hrun|]. split; [exact Hf'|].
    rewrite Ha', Ha1, reached_cons.
    unfold Z.sub. rewrite !inject_Z_plus, !inject_Z_opp. ring.
Qed.


Lemma last_cons {A} (x y : A) (l : list A) d :
  List.last (x :: y :: l) d = List.last (y :: l) d.
Proof. reflexivity. Qed.

Lemma last_from {A} (l : list A) : forall x d,
  List.last (x :: l) d = List.last l x.
Proof.
  induction l as [|y l IH]; intros x d; [reflexivity|].
  rewrite last_cons, (IH y d), (IH y x). reflexivity.
Qed.

(** Added without rounding, the increments of line 175 at a constant
    fraction add up to the entitlement of the days from the first date to
    the last. *)
Lemma accrual_exact f : forall ends acc l,
  accrual_in exact f acc l ends
  == acc + f * HolidaysPerCalendarDay * inject_Z (List.last ends l - l).
Proof.
  induction ends as [|e rest IH]; intros acc l; cbn [accrual_in].
  - cbn [List.last]. rewrite Z.sub_diag. ring.
  - rewrite IH, last_from. unfold accrue_in, Date.days.
    cbn [ar_add ar_mul ar_days ar_rate exact].
    unfold Z.sub. rewrite !inject_Z_plus, !inject_Z_opp. ring.
Qed.

(** The ledger of a run over markers that keep [f] holds the sum of
    [accrual_in] in the arithmetic of the model. *)
Lemma run_accrual_exact workdays f events st log l :
  lastDate st = Some l ->
  Date.IsZero (startDate st) = false ->
  fte st == f ->
  Forall (keeps_fte f) events ->
  accrued (ledger_of (run workdays st log events))
  == accrual_in exact f (accrued st) l (map End_ events).
Proof.
  intros Hl Hz Hf Hall.
  destruct (run_telescopes workdays f events st log l Hl Hz Hf Hall)
    as (st' & log' & -> & _ & Ha).
  cbn [ledger_of]. rewrite Ha, accrual_exact. reflexivity.
Qed.




(** ** C6: the work-day index *)

Lemma count_workdays_empty holidays a : count_workdays holidays a a = 0.
Proof. unfold count_workdays. now rewrite Z.sub_diag. Qed.

Lemma count_workdays_first holidays a b :
  a < b ->
  count_workdays holidays a b
  = (if is_workday holidays a then 1 else 0) + count_workdays holidays (a + 1) b.
Proof.
  intros H. unfold count_workdays.
  rewrite (seqZ_cons a (b - a)) by lia.
  replace (Z.pred (b - a)) with (b - (a + 1)) by lia.
  replace (Z.succ a) with (a + 1) by lia.
  rewrite filter_cons. destruct (is_workday holidays a) eqn:E.
  - rewrite decide_True by reflexivity. cbn [length]. lia.
  - rewrite decide_False by discriminate. lia.
Qed.

(** Working days add up over adjacent spans. *)
Lemma count_workdays_split holidays a b c :
  a <= b -> b <= c ->
  count_workdays holidays a c
  = count_workdays holidays a b + count_workdays holidays b c.
Proof.
  intros Hab Hbc. unfold count_workdays.
  replace (c - a) with ((b - a) + (c - b)) by lia.
  rewrite seqZ_app by lia. rewrite filter_app, length_app.
  replace (a + (b - a)) with b by lia. lia.
Qed.

(** The map after [k] iterations: the [k] days from [d] on carry the
    counter at their turn, the other keys are untouched. *)
Lemma workdays_loop_lookup holidays k : forall d n (workdays : gmap Z Z) x,
  workdays_loop holidays k d n workdays !! x
  = if decide (d <= x < d + Z.of_nat k)
    then Some (n + count_workdays holidays d x)
    else workdays !! x.
Proof.
  induction k as [|k IH]; intros d n workdays x.
  - cbn [workdays_loop]. rewrite decide_False by lia. reflexivity.
  - cbn [workdays_loop]. rewrite IH.
    destruct (decide (d + 1 <= x < d + 1 + Z.of_nat k)) as [Hin|Hout].
    + rewrite decide_True by lia.
      rewrite (count_workdays_first holidays d x) by lia.
      destruct (is_workday holidays d); apply (f_equal Some); ring.
    + destruct (decide (x = d)) as [->|Hne].
      * rewrite decide_True by lia.
        rewrite lookup_insert_eq, count_workdays_empty.
        apply (f_equal Some). ring.
      * rewrite decide_False by lia. now rewrite lookup_insert_ne.
Qed.

Lemma build_workdays_lookup holidays first last d :
  first <= d <= last ->
  build_workdays holidays first last !! d
  = Some (count_workdays holidays first d).
Proof.
  intros H. unfold build_workdays. rewrite workdays_loop_lookup.
  rewrite decide_True by lia. apply (f_equal Some). ring.
Qed.

Lemma wd_build_diff holidays first last s e :
  first <= s -> s <= e -> e <= last ->
  wd (build_workdays holidays first last) e
  - wd (build_workdays holidays first last) s
  = count_workdays holidays s e.
Proof.
  intros H1 H2 H3. unfold wd.
  rewrite !build_workdays_lookup by lia. cbn [default from_option id].
  rewrite (count_workdays_split holidays first s e) by lia. lia.
Qed.

(** Where every entry of the holiday calendar has a label, a working day
    of the program is a working day as the specification words it. *)
Lemma is_workday_labelled (holidays : gmap Z string) (d : Z) :
  (forall d' label, holidays !! d' = Some label -> label <> EmptyString) ->
  is_workday holidays d = spec_is_workday holidays d.
Proof.
  intros Hlab. unfold is_workday, spec_is_workday.
  destruct (holidays !! d) as [label|] eqn:E; [|reflexivity].
  cbn [default from_option id]. specialize (Hlab d label E).
  destruct (String.eqb_spec label EmptyString); [contradiction | reflexivity].
Qed.

(** C6, as stated, fails: a date that is a key of the holiday calendar
    with an empty label counts as a working day, the test being
    [holidays[dd] == ""]. *)
Lemma unnamed_holiday_counterexample :
  let first := Sample.jan 2 in
  let d := Sample.jan 3 in
  Sample.unnamed !! first = Some EmptyString /\
  build_workdays Sample.unnamed first d !! d = Some 1 /\
  spec_count_workdays Sample.unnamed first d = 0.
Proof. repeat split; vm_compute; reflexivity. Qed.

(** C6, amended: for every date [d] of the range the index holds the
    number of days of the range before [d] that are neither Saturday nor
    Sunday nor a date with a non-empty label in the holiday calendar; so
    for dates [s <= e] of the range the difference of their indices is the
    number of such days in [[s, e)]. *)
Theorem workdays_index_counts holidays first last :
  (forall d, first <= d <= last ->
     build_workdays holidays first last !! d
     = Some (count_workdays holidays first d)) /\
  (forall s e, first <= s -> s <= e -> e <= last ->
     wd (build_workdays holidays first last) e
     - wd (build_workdays holidays first last) s
     = count_workdays holidays s e).
Proof.
  split.
  - intros d. apply build_workdays_lookup.
  - intros s e. apply wd_build_diff.
Qed.

Lemma workdays_index_counts_witness :
  Sample.workdays !! Sample.jan 12 = Some 8 /\
  wd Sample.workdays (Sample.jan 12) - wd Sample.workdays (Sample.jan 8) = 4.
Proof.
  destruct (workdays_index_counts Sample.holidays (Sample.jan 1) (Sample.jan 31))
    as [Hidx Hdiff].
  split.
  - unfold Sample.workdays. rewrite Hidx by (vm_compute; split; congruence).
    vm_compute. reflexivity.
  - unfold Sample.workdays.
    rewrite Hdiff by (vm_compute; congruence). vm_compute. reflexivity.
Defined.

(** ** C1: a vacation that ends before the last vacation processed *)

(** A vacation marker that ends before [lastVacationDate], processed
    after an employment start with accrual begun, is not skipped: its
    span is patched to start at [lastVacationDate], [lastVacationDate]
    moves back to its end, the difference of the two indices, which is
    not positive, is deducted, and a snapshot is emitted. *)
Lemma covered_vacation_not_skipped holidays first last st ev l lv :
  classify ev = VacationBooking ->
  Date.IsZero (startDate st) = false ->
  lastDate st = Some l ->
  lastVacationDate st = Some lv ->
  Start ev <= End_ ev -> End_ ev < lv ->
  first <= End_ ev -> lv <= last ->
  exists st' u,
    loop_body (build_workdays holidays first last) st ev
    = Continue st' (Some u) /\
    Start (u_ev u) = lv /\ End_ (u_ev u) = End_ ev /\
    u_daysOff u = inject_Z (- count_workdays holidays (End_ ev) lv) /\
    lastVacationDate st' = Some (End_ ev) /\
    spent st' = (spent st + u_effDaysOff u)%Q.
Proof.
  intros Hk Hz Hl Hv Hse Hlv Hf Hla.
  rewrite (loop_body_vacation _ _ _ Hk).
  destruct (on_vacation_after_accrue (build_workdays holidays first last)
              st ev l Hl Hz) as (u & -> & Hs & He & Hd & _).
  assert (Hp : patched_start st ev = lv).
  { unfold patched_start. rewrite Hv.
    destruct (Z.ltb_spec (Start ev) lv); [reflexivity | lia]. }
  rewrite Hp in Hs, Hd.
  do 2 eexists. split; [reflexivity|]. cbn [lastVacationDate spent].
  repeat (split; [first [assumption | reflexivity]|]).
  split; [|split; reflexivity].
  rewrite Hd. f_equal.
  pose proof (wd_build_diff holidays first last (End_ ev) lv
                ltac:(lia) ltac:(lia) ltac:(lia)) as H.
  lia.
Qed.

(** C1: on a calendar with a start marker on 2024-01-01, a vacation from
    January 8 to 20 and a holiday from January 9 to 10, the holiday ends
    before [lastVacationDate] and is not skipped.  The test of line 208
    reads [lastDate], which line 176 has just set to the end of the
    event, where [lastVacationDate] is meant, so it never holds: the span
    is patched to run from January 20 back to January 10, minus 8 days
    off are deducted ([spent] goes from 10 to 2), [lastVacationDate] moves
    back to January 10 and a snapshot is emitted. *)
Theorem covered_vacation_deducted :
  let before := [Sample.start100; Sample.fortnight] in
  let st := ledger_after Sample.holidays before in
  let st' := ledger_after Sample.holidays (before ++ [Sample.inside]) in
  classify Sample.inside = VacationBooking /\
  lastVacationDate st = Some (Sample.jan 20) /\
  End_ Sample.inside < Sample.jan 20 /\
  accrued st == 475 # 365 /\ accrued st' == 225 # 365 /\
  spent st == 10 /\ spent st' == 2 /\
  lastVacationDate st' = Some (Sample.jan 10) /\
  length (log_after Sample.holidays before) = 2%nat /\
  map (fun u => (Start (u_ev u), End_ (u_ev u), u_daysOff u))
      (skipn 2 (log_after Sample.holidays (before ++ [Sample.inside])))
  = [(Sample.jan 20, Sample.jan 10, inject_Z (-8))].
Proof. repeat split; vm_compute; reflexivity. Qed.

(** ** C5: two overlapping vacations *)

(** Markers that are no vacation bookings, after accrual has begun, leave
    [lastVacationDate] as it is and the employment started; the snapshots
    emitted for them are those of start markers, with no days off. *)
Lemma run_no_booking workdays mid : forall st log rest l,
  lastDate st = Some l ->
  Date.IsZero (startDate st) = false ->
  Forall no_booking mid ->
  exists st' l' us,
    run workdays st log (mid ++ rest) = run workdays st' (log ++ us) rest /\
    lastDate st' = Some l' /\
    Date.IsZero (startDate st') = false /\
    lastVacationDate st' = lastVacationDate st /\
    Forall (fun u => classify (u_ev u) = EmploymentStart /\ u_daysOff u = 0%Q)
           us.
Proof.
  induction mid as [|e mid IH]; intros st log rest l Hl Hz Hmid.
  - exists st, l, []. rewrite app_nil_r. repeat split; try assumption.
    constructor.
  - inversion Hmid as [|? ? He Hmid']; subst.
    destruct (accrue_frame st e) as (Hs & _ & _ & Hv).
    destruct (accrue_set st e l Hl) as [Hl' _].
    cbn [app run]. destruct He as [He | [He Hze]].
    + destruct (IH (accrue st e) log rest (End_ e) Hl'
                  ltac:(now rewrite Hs) Hmid')
        as (st' & l' & us & Hrun & Hl'' & Hz' & Hv' & Hus).
      exists st', l', us. rewrite (loop_body_ignored _ _ _ He).
      cbn [emitted]. rewrite app_nil_r.
      repeat split; try assumption. congruence.
    + rewrite (loop_body_start _ _ _ He). unfold on_start.
      rewrite Hs, Hz, Hl'.
      match goal with
      | |- context [run _ ?s (log ++ emitted (Some ?u)) _] =>
          set (u1 := u); set (st1 := s)
      end.
      destruct (IH st1 (log ++ [u1]) rest (End_ e) eq_refl Hze Hmid')
        as (st' & l' & us & Hrun & Hl'' & Hz' & Hv' & Hus).
      exists st', l', (u1 :: us). cbn [emitted].
      rewrite Hrun, <- app_assoc. cbn [app].
      repeat split; try assumption.
      * rewrite Hv'. unfold st1. cbn [lastVacationDate]. exact Hv.
      * constructor; [|exact Hus]. split; [exact He | reflexivity].
Qed.

(** C5, as stated, fails when a third booking takes days of the two
    spans.  With an earlier booking from January 3 to 10, the bookings of
    January 8 to 20 and of January 17 to 25 are counted from January 10
    and from January 20: 8 and 3 days off, for the 13 working days of
    January 8 to 25.  With a booking from January 10 to 23 between them,
    the second is counted from January 23: 10 and 2 days off. *)
Lemma third_booking_counterexample :
  classify Sample.fortnight = VacationBooking /\
  classify Sample.overlap = VacationBooking /\
  Start Sample.fortnight <= Start Sample.overlap < End_ Sample.fortnight /\
  End_ Sample.fortnight <= End_ Sample.overlap /\
  count_workdays Sample.holidays (Start Sample.fortnight) (End_ Sample.overlap)
  = 13 /\
  OverlapSample.days_off OverlapSample.earlier
  = [(Sample.jan 1, Sample.jan 2, 0%Q);
     (Sample.jan 3, Sample.jan 10, inject_Z 5);
     (Sample.jan 10, Sample.jan 20, inject_Z 8);
     (Sample.jan 20, Sample.jan 25, inject_Z 3)] /\
  OverlapSample.days_off OverlapSample.between
  = [(Sample.jan 1, Sample.jan 2, 0%Q);
     (Sample.jan 8, Sample.jan 20, inject_Z 10);
     (Sample.jan 20, Sample.jan 23, inject_Z 1);
     (Sample.jan 23, Sample.jan 25, inject_Z 2)].
Proof. repeat split; vm_compute; congruence. Qed.

(** A booking inside the first one, between the two, is not skipped (the
    test of line 208 never holds): it moves [lastVacationDate] back to
    its own end, and the second booking counts from there the days the
    first has counted already. *)
Lemma covered_booking_between :
  OverlapSample.days_off OverlapSample.covered
  = [(Sample.jan 1, Sample.jan 2, 0%Q);
     (Sample.jan 8, Sample.jan 20, inject_Z 10);
     (Sample.jan 20, Sample.jan 10, inject_Z (-8));
     (Sample.jan 17, Sample.jan 25, inject_Z 6)].
Proof. vm_compute. reflexivity. Qed.

(** C5, amended: two vacation markers [[a, b)] and [[c, d)] with
    [a <= c < b <= d], processed in that order after an employment start
    with no vacation marker between them and no earlier booking reaching
    past [a]: the second is counted from [b] on, and the days off of the
    two add up to the working days of [[a, d)], each counted once. *)
Theorem overlap_counted_once holidays first last st l m1 mid m2 log :
  classify m1 = VacationBooking ->
  Forall no_booking mid ->
  classify m2 = VacationBooking ->
  Start m1 <= Start m2 -> Start m2 < End_ m1 -> End_ m1 <= End_ m2 ->
  first <= Start m1 -> End_ m2 <= last ->
  Date.IsZero (startDate st) = false ->
  lastDate st = Some l ->
  (forall lv, lastVacationDate st = Some lv -> lv <= Start m1) ->
  exists st' u1 us u2,
    run (build_workdays holidays first last) st log (m1 :: mid ++ [m2])
    = Done st' (log ++ u1 :: us ++ [u2]) /\
    Forall (fun u => classify (u_ev u) = EmploymentStart /\ u_daysOff u = 0%Q)
           us /\
    Start (u_ev u1) = Start m1 /\ End_ (u_ev u1) = End_ m1 /\
    Start (u_ev u2) = End_ m1 /\ End_ (u_ev u2) = End_ m2 /\
    u_daysOff u1
    = inject_Z (count_workdays holidays (Start m1) (End_ m1)) /\
    u_daysOff u2
    = inject_Z (count_workdays holidays (End_ m1) (End_ m2)) /\
    u_daysOff u1 + u_daysOff u2
    == inject_Z (count_workdays holidays (Start m1) (End_ m2)).
Proof.
  intros Hk1 Hmid Hk2 Hac Hcb Hbd Hfa Hdl Hz Hl Hlv.
  cbn [run]. rewrite (loop_body_vacation _ _ _ Hk1).
  destruct (on_vacation_after_accrue (build_workdays holidays first last)
              st m1 l Hl Hz) as (u1 & -> & Hs1 & He1 & Hd1 & _).
  assert (Hp1 : patched_start st m1 = Start m1).
  { unfold patched_start.
    destruct (lastVacationDate st) as [lv|]; [|reflexivity].
    specialize (Hlv lv eq_refl).
    destruct (Z.ltb_spec (Start m1) lv); [lia | reflexivity]. }
  rewrite Hp1 in Hs1. rewrite Hp1, wd_build_diff in Hd1 by lia.
  match goal with
  | |- context [run _ ?s _ (mid ++ [m2])] => set (st1 := s)
  end.
  destruct (run_no_booking (build_workdays holidays first last) mid st1
              (log ++ emitted (Some u1)) [m2] (End_ m1) eq_refl Hz Hmid)
    as (st2 & l2 & us & -> & Hl2 & Hz2 & Hv2 & Hus).
  cbn [run]. rewrite (loop_body_vacation _ _ _ Hk2).
  destruct (on_vacation_after_accrue (build_workdays holidays first last)
              st2 m2 l2 Hl2 Hz2) as (u2 & -> & Hsu2 & He2 & Hd2 & _).
  assert (Hp2 : patched_start st2 m2 = End_ m1).
  { unfold patched_start. rewrite Hv2. unfold st1. cbn [lastVacationDate].
    destruct (Z.ltb_spec (Start m2) (End_ m1)); [reflexivity | lia]. }
  rewrite Hp2 in Hsu2. rewrite Hp2, wd_build_diff in Hd2 by lia.
  eexists _, u1, us, u2. split.
  { cbn [emitted]. rewrite <- !app_assoc. reflexivity. }
  repeat (split; [assumption|]).
  rewrite Hd1, Hd2, <- inject_Z_plus.
  rewrite (count_workdays_split holidays (Start m1) (End_ m1) (End_ m2)) by lia.
  reflexivity.
Qed.

Lemma overlap_counted_once_witness :
  exists st' u1 us u2,
    run (build_workdays Sample.holidays (Sample.jan 1) (Sample.jan 31))
      (ledger_of (run Sample.workdays init [] [Sample.start100])) []
      (Sample.fortnight
       :: [Sample.dentist; OverlapSample.halftime] ++ [Sample.overlap])
    = Done st' ([] ++ u1 :: us ++ [u2]) /\
    Start (u_ev u2) = Sample.jan 20 /\
    u_daysOff u1 + u_daysOff u2
    == inject_Z (count_workdays Sample.holidays (Sample.jan 8) (Sample.jan 25)).
Proof.
  destruct (overlap_counted_once Sample.holidays (Sample.jan 1) (Sample.jan 31)
              (ledger_of (run Sample.workdays init [] [Sample.start100]))
              (Sample.jan 1) Sample.fortnight
              [Sample.dentist; OverlapSample.halftime]
              Sample.overlap [])
    as (st' & u1 & us & u2 & Hrun & _ & _ & _ & Hs & _ & _ & _ & Hsum).
  - reflexivity.
  - constructor; [left; reflexivity|].
    constructor; [right; split; reflexivity | constructor].
  - reflexivity.
  - vm_compute. congruence.
  - vm_compute. reflexivity.
  - vm_compute. congruence.
  - vm_compute. congruence.
  - vm_compute. congruence.
  - reflexivity.
  - reflexivity.
  - intros lv H. discriminate H.
  - exists st', u1, us, u2.
    split; [exact Hrun|]. split; [exact Hs | exact Hsum].
Defined.

(** ** C10: merging the balance line into the description *)

Section Merge.

Import Notes.

Lemma Split_lines s : Forall (fun l => one_line l = true) (Split s).
Proof.
  induction s as [|c r IH]; cbn [Split]; [repeat constructor|].
  destruct (Ascii.eqb c newline) eqn:E; [now constructor|].
  destruct (Split r) as [|h t]; [repeat constructor; cbn; now rewrite E|].
  inversion IH as [|? ? Hh Ht]; subst. constructor; [|exact Ht].
  cbn [one_line]. now rewrite E, Hh.
Qed.

(** Splitting a line followed by a line break and a text. *)
Lemma Split_line_break l r :
  one_line l = true ->
  Split (l ++ String newline r)%string = l :: Split r.
Proof.
  induction l as [|c l IH]; cbn [one_line]; intros H.
  - reflexivity.
  - apply andb_prop in H as [Hc Hl]. apply negb_true_iff in Hc.
    change (Split (String c (String.append l (String newline r)))
            = String c l :: Split r).
    cbn [Split]. rewrite Hc, (IH Hl). reflexivity.
Qed.

Lemma Split_line l : one_line l = true -> Split l = [l].
Proof.
  induction l as [|c l IH]; cbn [one_line Split]; intros H; [reflexivity|].
  apply andb_prop in H as [Hc Hl]. apply negb_true_iff in Hc.
  now rewrite Hc, (IH Hl).
Qed.

(** [Split] undoes [Join] on lines. *)
Lemma Split_Join lines :
  lines <> [] -> Forall (fun l => one_line l = true) lines ->
  Split (Join lines) = lines.
Proof.
  induction lines as [|l rest IH]; intros Hne Hall; [congruence|].
  inversion Hall as [|? ? Hl Hrest]; subst.
  destruct rest as [|l2 rest'].
  - cbn [Join]. now apply Split_line.
  - change (Join (l :: l2 :: rest'))
      with (l ++ String newline (Join (l2 :: rest')))%string.
    rewrite (Split_line_break _ _ Hl), IH; [reflexivity | discriminate | exact Hrest].
Qed.

Lemma removelast_lines (lines : list string) :
  Forall (fun l => one_line l = true) lines ->
  Forall (fun l => one_line l = true) (removelast lines).
Proof.
  induction 1 as [|l rest Hl Hrest IH]; [constructor|].
  cbn [removelast]. destruct rest; [constructor | now constructor].
Qed.

Lemma marker_line rest :
  one_line rest = true -> one_line (marker ++ rest)%string = true.
Proof. intros H. cbn. exact H. Qed.

Lemma marker_prefix rest : HasPrefix (marker ++ rest)%string marker = true.
Proof. cbn. now destruct rest. Qed.

(** The merge keeps the lines of the description, but for a last line
    that starts with the marker, and appends the balance line. *)
Lemma merge_lines description balanceline :
  exists kept,
    Forall (fun l => one_line l = true) kept /\
    merge description balanceline = Join (kept ++ [balanceline]).
Proof.
  unfold merge.
  destruct ((0 <? length (Split description))%nat
            && HasPrefix (List.last (Split description) EmptyString) marker).
  - exists (removelast (Split description)).
    split; [apply removelast_lines, Split_lines | reflexivity].
  - exists (Split description). split; [apply Split_lines | reflexivity].
Qed.

(** Merging a balance line into a text that ends with that line gives the
    text back. *)
Lemma merge_again kept rest :
  Forall (fun l => one_line l = true) kept ->
  one_line rest = true ->
  merge (Join (kept ++ [marker ++ rest]%string)) (marker ++ rest)%string
  = Join (kept ++ [marker ++ rest]%string).
Proof.
  intros Hkept Hrest. unfold merge.
  rewrite Split_Join.
  - rewrite last_last, marker_prefix, removelast_last.
    rewrite length_app, Nat.add_comm. reflexivity.
  - now destruct kept.
  - apply Forall_app. split; [exact Hkept|].
    constructor; [now apply marker_line | constructor].
Qed.

End Merge.

(** C10: for every description [t] and every balance line, a line that
    starts with "vacation from " (the format of [updateEvent]) and has no
    line break, merging the line into the result of merging it into [t]
    gives that result again. *)
Theorem merge_idempotent (t rest : string) :
  one_line rest = true ->
  let balanceline := (Notes.marker ++ rest)%string in
  Notes.merge (Notes.merge t balanceline) balanceline
  = Notes.merge t balanceline.
Proof.
  intros Hrest balanceline.
  destruct (merge_lines t balanceline) as (kept & Hkept & ->).
  now apply merge_again.
Qed.

Lemma merge_idempotent_witness :
  let t := String.append "Skiing" (String Notes.newline "vacation from 2023-01-01 to 2023-01-02: 1.0 days") in
  let line := String.append Notes.marker "2024-01-08 to 2024-01-12: 4.0 days" in
  Notes.merge t line = String.append "Skiing" (String Notes.newline line) /\
  Notes.merge (Notes.merge t line) line = Notes.merge t line.
Proof.
  split; [reflexivity|].
  apply (merge_idempotent _ "2024-01-08 to 2024-01-12: 4.0 days").
  reflexivity.
Defined.

(** * The rest of the program *)

(** ** The calendar of package [time] *)

Section Calendar.

Import Civil.

Lemma all_from_spec k : forall t f,
  all_from k t f = true ->
  forall x, t <= x < t + Z.of_nat k -> f x = true.
Proof.
  induction k as [|k IH]; intros t f H x Hx; [lia|].
  cbn [all_from] in H. apply andb_prop in H as [Ht Hrest].
  destruct (Z.eq_dec x t) as [->|Hne]; [exact Ht|].
  apply (IH (t + 1) f Hrest). lia.
Qed.

(** The calendar repeats every 400 years, which are 146097 days. *)
Lemma ymd_period y m d k :
  Date.ymd (y + 400 * k) m d = Date.ymd y m d + 146097 * k.
Proof.
  unfold Date.ymd. cbv zeta. destruct (m <=? 2).
  - replace (y + 400 * k - 1) with (y - 1 + k * 400) by ring.
    rewrite Z.div_add by lia. set (q := (y - 1) / 400).
    replace (y - 1 + k * 400 - (q + k) * 400) with (y - 1 - q * 400) by ring.
    ring.
  - replace (y + 400 * k) with (y + k * 400) by ring.
    rewrite Z.div_add by lia. set (q := y / 400).
    replace (y + k * 400 - (q + k) * 400) with (y - q * 400) by ring.
    ring.
Qed.

Lemma is_leap_period y k : is_leap (y + 400 * k) = is_leap y.
Proof.
  unfold is_leap.
  replace ((y + 400 * k) mod 4) with (y mod 4)
    by (replace (y + 400 * k) with (y + (100 * k) * 4) by ring;
        now rewrite Z.mod_add).
  replace ((y + 400 * k) mod 100) with (y mod 100)
    by (replace (y + 400 * k) with (y + (4 * k) * 100) by ring;
        now rewrite Z.mod_add).
  replace ((y + 400 * k) mod 400) with (y mod 400)
    by (replace (y + 400 * k) with (y + k * 400) by ring;
        now rewrite Z.mod_add).
  reflexivity.
Qed.

Lemma daysIn_period m y k : daysIn m (y + 400 * k) = daysIn m y.
Proof. unfold daysIn. now rewrite is_leap_period. Qed.

Lemma valid_period y m d k : valid (y + 400 * k) m d = valid y m d.
Proof. unfold valid. now rewrite daysIn_period. Qed.

Lemma civil_period t k :
  civil (t + 146097 * k)
  = let '(y, m, d) := civil t in (y + 400 * k, m, d).
Proof.
  unfold civil.
  replace (t + 146097 * k + 306) with (t + 306 + k * 146097) by ring.
  rewrite Z.div_add by lia.
  replace (t + 306 + k * 146097 - ((t + 306) / 146097 + k) * 146097)
    with (t + 306 - (t + 306) / 146097 * 146097) by ring.
  cbn zeta. f_equal. f_equal. ring.
Qed.

(** One period checked day by day: the date of a day is a date of the
    calendar, and its day number is that day. *)
Lemma civil_era t : -306 <= t < 146097 - 306 -> day_check t = true.
Proof.
  intros H. apply (all_from_spec (Z.to_nat 146097) (-306) day_check).
  - vm_compute. reflexivity.
  - rewrite Z2Nat.id; lia.
Qed.

(** One period checked month by month: the first of the next month is the
    first of the month plus its days. *)
Lemma year_era y : 0 <= y < 400 -> year_check y = true.
Proof.
  intros H. apply (all_from_spec (Z.to_nat 400) 0 year_check).
  - vm_compute. reflexivity.
  - rewrite Z2Nat.id; lia.
Qed.

Lemma ymd_civil t :
  let '(y, m, d) := civil t in valid y m d = true /\ Date.ymd y m d = t.
Proof.
  pose (k := (t + 306) / 146097). pose (t0 := t - 146097 * k).
  assert (Ht0 : -306 <= t0 < 146097 - 306).
  { unfold t0, k. pose proof (Z.mod_pos_bound (t + 306) 146097 eq_refl).
    pose proof (Z.div_mod (t + 306) 146097 ltac:(lia)). lia. }
  pose proof (civil_era t0 Ht0) as H. unfold day_check in H.
  replace t with (t0 + 146097 * k) by (unfold t0; ring).
  rewrite civil_period. destruct (civil t0) as [[y m] d].
  apply andb_prop in H as [Hv He]. apply Z.eqb_eq in He.
  rewrite valid_period, ymd_period, He. split; [exact Hv | reflexivity].
Qed.

Lemma year_cycle y : exists y0 k, y = y0 + 400 * k /\ 0 <= y0 < 400.
Proof.
  exists (y mod 400), (y / 400).
  pose proof (Z.mod_pos_bound y 400 eq_refl).
  pose proof (Z.div_mod y 400 ltac:(lia)). lia.
Qed.

Lemma month_step y m :
  1 <= m <= 11 -> Date.ymd y (m + 1) 1 = Date.ymd y m 1 + daysIn m y.
Proof.
  intros Hm. destruct (year_cycle y) as (y0 & k & -> & Hy0).
  pose proof (year_era y0 Hy0) as H. unfold year_check in H.
  apply andb_prop in H as [H _]. apply andb_prop in H as [H _].
  pose proof (all_from_spec _ _ _ H m ltac:(cbn; lia)) as E.
  unfold month_check in E.
  apply Z.eqb_eq in E. rewrite !ymd_period, daysIn_period, E. ring.
Qed.

Lemma year_step y : Date.ymd (y + 1) 1 1 = Date.ymd y 12 1 + 31.
Proof.
  destruct (year_cycle y) as (y0 & k & -> & Hy0).
  pose proof (year_era y0 Hy0) as H. unfold year_check in H.
  apply andb_prop in H as [H _]. apply andb_prop in H as [_ E].
  apply Z.eqb_eq in E.
  replace (y0 + 400 * k + 1) with (y0 + 1 + 400 * k) by ring.
  rewrite !ymd_period, E. ring.
Qed.

(** A year has 365 days, 366 when it is a leap year. *)
Lemma year_length y :
  Date.ymd (y + 1) 1 1
  = Date.ymd y 1 1 + (if is_leap y then 366 else 365).
Proof.
  destruct (year_cycle y) as (y0 & k & -> & Hy0).
  pose proof (year_era y0 Hy0) as H. unfold year_check in H.
  apply andb_prop in H as [_ E]. apply Z.eqb_eq in E.
  replace (y0 + 400 * k + 1) with (y0 + 1 + 400 * k) by ring.
  rewrite !ymd_period, is_leap_period, E. ring.
Qed.

Lemma ymd_day y m d : Date.ymd y m d = Date.ymd y m 1 + (d - 1).
Proof. unfold Date.ymd. cbv zeta. lia. Qed.

Lemma daysIn_bounds m y : 28 <= daysIn m y <= 31.
Proof.
  unfold daysIn. destruct (m =? 2); [destruct (is_leap y); lia|].
  destruct ((m =? 4) || (m =? 6) || (m =? 9) || (m =? 11)); lia.
Qed.

(** The firsts of the months of a year come in order. *)
Lemma month_starts y m n :
  1 <= m -> 0 <= n -> m + n <= 12 ->
  Date.ymd y m 1 + 28 * n <= Date.ymd y (m + n) 1.
Proof.
  intros Hm Hn. revert n Hn.
  apply (natlike_ind (fun n => m + n <= 12 ->
           Date.ymd y m 1 + 28 * n <= Date.ymd y (m + n) 1)).
  - intros _. replace (m + 0) with m by lia. lia.
  - intros n Hn IH Hle.
    replace (m + Z.succ n) with (m + n + 1) by lia.
    rewrite month_step by lia.
    pose proof (daysIn_bounds (m + n) y). lia.
Qed.

(** The first of January and the last day of a year bound its days. *)
Lemma year_bounds y m d :
  valid y m d = true ->
  Date.ymd y 1 1 <= Date.ymd y m d < Date.ymd (y + 1) 1 1.
Proof.
  unfold valid. intros H.
  apply andb_prop in H as [H Hd2]. apply andb_prop in H as [H Hd1].
  apply andb_prop in H as [Hm1 Hm2].
  apply Z.leb_le in Hd2, Hd1, Hm1, Hm2.
  rewrite (ymd_day y m d), year_step.
  pose proof (month_starts y 1 (m - 1) ltac:(lia) ltac:(lia) ltac:(lia)) as H1.
  replace (1 + (m - 1)) with m in H1 by lia.
  split; [lia|].
  destruct (Z.eq_dec m 12) as [->|Hne].
  - pose proof (daysIn_bounds 12 y). lia.
  - pose proof (month_starts y (m + 1) (12 - (m + 1))
                  ltac:(lia) ltac:(lia) ltac:(lia)) as H2.
    replace (m + 1 + (12 - (m + 1))) with 12 in H2 by lia.
    rewrite month_step in H2 by lia. lia.
Qed.

Lemma year_starts y n :
  0 <= n -> Date.ymd y 1 1 + 365 * n <= Date.ymd (y + n) 1 1.
Proof.
  revert n.
  apply (natlike_ind (fun n =>
           Date.ymd y 1 1 + 365 * n <= Date.ymd (y + n) 1 1)).
  - replace (y + 0) with y by lia. lia.
  - intros n Hn IH.
    replace (y + Z.succ n) with (y + n + 1) by lia.
    rewrite year_length. destruct (is_leap (y + n)); lia.
Qed.

(** Day numbers order the dates of the calendar as year, month and day
    do. *)
Lemma ymd_lt y m d y' m' d' :
  valid y m d = true -> valid y' m' d' = true ->
  y < y' \/ (y = y' /\ (m < m' \/ (m = m' /\ d < d'))) ->
  Date.ymd y m d < Date.ymd y' m' d'.
Proof.
  intros Hv Hv' Hlt.
  pose proof (year_bounds _ _ _ Hv) as Hb.
  pose proof (year_bounds _ _ _ Hv') as Hb'.
  destruct Hlt as [Hy | [-> Hlt]].
  - pose proof (year_starts (y + 1) (y' - (y + 1)) ltac:(lia)) as Hs.
    replace (y + 1 + (y' - (y + 1))) with y' in Hs by lia. lia.
  - unfold valid in Hv, Hv'.
    apply andb_prop in Hv as [Hv Hd2]. apply andb_prop in Hv as [Hv Hd1].
    apply andb_prop in Hv as [Hm1 Hm2].
    apply andb_prop in Hv' as [Hv' Hd2']. apply andb_prop in Hv' as [Hv' Hd1'].
    apply andb_prop in Hv' as [Hm1' Hm2'].
    apply Z.leb_le in Hd2, Hd1, Hm1, Hm2, Hd2', Hd1', Hm1', Hm2'.
    rewrite (ymd_day y' m d), (ymd_day y' m' d').
    destruct Hlt as [Hm | [-> Hd]]; [|lia].
    pose proof (month_starts y' (m + 1) (m' - (m + 1))
                  ltac:(lia) ltac:(lia) ltac:(lia)) as Hs.
    replace (m + 1 + (m' - (m + 1))) with m' in Hs by lia.
    rewrite month_step in Hs by lia. lia.
Qed.

Lemma ymd_inj y m d y' m' d' :
  valid y m d = true -> valid y' m' d' = true ->
  Date.ymd y m d = Date.ymd y' m' d' -> (y, m, d) = (y', m', d').
Proof.
  intros Hv Hv' E.
  destruct (Z.lt_trichotomy y y') as [H | [-> | H]].
  - pose proof (ymd_lt _ _ _ _ _ _ Hv Hv' (or_introl H)). lia.
  - destruct (Z.lt_trichotomy m m') as [H | [-> | H]].
    + pose proof (ymd_lt _ _ _ _ _ _ Hv Hv' ltac:(right; split; [reflexivity | now left])). lia.
    + destruct (Z.lt_trichotomy d d') as [H | [-> | H]]; [|reflexivity|].
      * pose proof (ymd_lt _ _ _ _ _ _ Hv Hv' ltac:(right; split; [reflexivity | now right])). lia.
      * pose proof (ymd_lt _ _ _ _ _ _ Hv' Hv ltac:(right; split; [reflexivity | now right])). lia.
    + pose proof (ymd_lt _ _ _ _ _ _ Hv' Hv ltac:(right; split; [reflexivity | now left])). lia.
  - pose proof (ymd_lt _ _ _ _ _ _ Hv' Hv (or_introl H)). lia.
Qed.

Lemma civil_ymd y m d :
  valid y m d = true -> civil (Date.ymd y m d) = (y, m, d).
Proof.
  intros Hv. pose proof (ymd_civil (Date.ymd y m d)) as H.
  destruct (civil (Date.ymd y m d)) as [[y' m'] d'].
  destruct H as [Hv' E]. now apply ymd_inj.
Qed.

End Calendar.

(** ** Date strings *)

Section DateStrings.

Import Civil.

Lemma digit_char_code n : 0 <= n <= 9 -> N_of_ascii (digit_char n) = Z.to_N (48 + n).
Proof.
  intros H. unfold digit_char. apply N_ascii_embedding.
  apply N2Z.inj_lt. rewrite Z2N.id by lia. cbn. lia.
Qed.

Lemma digit_val_char n : 0 <= n <= 9 -> Re.digit_val (digit_char n) = Some n.
Proof.
  intros H. unfold Re.digit_val. rewrite digit_char_code by exact H.
  rewrite Z2N.id by lia.
  destruct (Z.leb_spec 48 (48 + n)); [|lia].
  destruct (Z.leb_spec (48 + n) 57); [|lia].
  cbn [andb]. apply (f_equal Some). ring.
Qed.

Lemma digit_char_val a x : Re.digit_val a = Some x -> a = digit_char x.
Proof.
  unfold Re.digit_val, digit_char.
  destruct (Z.leb_spec 48 (Z.of_N (N_of_ascii a)));
    destruct (Z.leb_spec (Z.of_N (N_of_ascii a)) 57); cbn [andb];
    intros [= <-].
  replace (48 + (Z.of_N (N_of_ascii a) - 48)) with (Z.of_N (N_of_ascii a))
    by ring.
  now rewrite N2Z.id, ascii_N_embedding.
Qed.

(** [getnum] reads two digits and nothing else. *)
Lemma getnum_spec s n r :
  getnum s = Some (n, r) <-> 0 <= n <= 99 /\ s = pad2 n r.
Proof.
  split.
  - unfold getnum. destruct s as [|a [|b r']]; try discriminate.
    destruct (Re.digit_val a) as [x|] eqn:Ha; [|discriminate].
    destruct (Re.digit_val b) as [y|] eqn:Hb; [|discriminate].
    intros [= <- <-].
    pose proof (digit_val_range _ _ Ha). pose proof (digit_val_range _ _ Hb).
    apply digit_char_val in Ha, Hb. subst a b.
    split; [lia|]. unfold pad2.
    replace ((10 * x + y) / 10) with x by (Z.to_euclidean_division_equations; lia).
    replace ((10 * x + y) mod 10) with y by (Z.to_euclidean_division_equations; lia).
    reflexivity.
  - intros [Hn ->]. unfold getnum, pad2.
    rewrite !digit_val_char by (Z.to_euclidean_division_equations; lia).
    f_equal. f_equal. Z.to_euclidean_division_equations; lia.
Qed.

Lemma getnum_pad2 n r : 0 <= n <= 99 -> getnum (pad2 n r) = Some (n, r).
Proof. intros H. apply getnum_spec. now split. Qed.

Lemma valid_bounds y m d :
  valid y m d = true -> 1 <= m <= 12 /\ 1 <= d <= 31.
Proof.
  unfold valid. intros H.
  apply andb_prop in H as [H Hd2]. apply andb_prop in H as [H Hd1].
  apply andb_prop in H as [Hm1 Hm2].
  apply Z.leb_le in Hd2, Hd1, Hm1, Hm2.
  pose proof (daysIn_bounds m y). lia.
Qed.

(** What [Parse] accepts: the text of a date of the calendar, with a year
    from 0 to 9999, and its value is the day number of that date. *)
Lemma Parse_spec s t :
  Parse s = Some t <->
  exists c y m d,
    0 <= c <= 99 /\ 0 <= y <= 99 /\ valid (100 * c + y) m d = true /\
    s = date_text c y m d /\ t = Date.ymd (100 * c + y) m d.
Proof.
  split.
  - unfold Parse.
    destruct (getnum s) as [[c s1]|] eqn:E1; [|discriminate].
    destruct (getnum s1) as [[y s2]|] eqn:E2; [|discriminate].
    destruct s2 as [|h1 s2]; [discriminate|].
    destruct (Ascii.eqb_spec h1 "-"%char) as [->|Hh1].
    2:{ destruct h1 as [[] [] [] [] [] [] [] []]; try discriminate.
        now contradict Hh1. }
    destruct (getnum s2) as [[m s3]|] eqn:E3; [|discriminate].
    destruct s3 as [|h2 s3]; [discriminate|].
    destruct (Ascii.eqb_spec h2 "-"%char) as [->|Hh2].
    2:{ destruct h2 as [[] [] [] [] [] [] [] []]; try discriminate.
        now contradict Hh2. }
    destruct (getnum s3) as [[d s4]|] eqn:E4; [|discriminate].
    destruct s4; [|discriminate].
    destruct (valid (100 * c + y) m d) eqn:Hv; [|discriminate].
    intros [= <-].
    apply getnum_spec in E1 as [Hc ->], E2 as [Hy ->],
        E3 as [_ ->], E4 as [_ ->].
    exists c, y, m, d. repeat split; try assumption; lia.
  - intros (c & y & m & d & Hc & Hy & Hv & -> & ->).
    destruct (valid_bounds _ _ _ Hv) as [Hm Hd].
    unfold Parse, date_text.
    rewrite getnum_pad2 by lia. cbv iota beta.
    rewrite getnum_pad2 by lia. cbv iota beta.
    rewrite getnum_pad2 by lia. cbv iota beta.
    rewrite getnum_pad2 by lia. cbv iota beta.
    now rewrite Hv.
Qed.

Lemma pad_era n : 0 <= n < 10000 -> pad_check n = true.
Proof.
  intros H. apply (all_from_spec (Z.to_nat 10000) 0 pad_check).
  - vm_compute. reflexivity.
  - rewrite Z2Nat.id; lia.
Qed.

(** The text [Format] writes for a date with a year from 0 to 9999. *)
Lemma Format_text c y m d :
  0 <= c <= 99 -> 0 <= y <= 99 -> valid (100 * c + y) m d = true ->
  Format (Date.ymd (100 * c + y) m d) = date_text c y m d.
Proof.
  intros Hc Hy Hv. destruct (valid_bounds _ _ _ Hv) as [Hm Hd].
  unfold Format. rewrite (civil_ymd _ _ _ Hv).
  pose proof (pad_era (100 * c + y) ltac:(lia)) as Py.
  pose proof (pad_era m ltac:(lia)) as Pm.
  pose proof (pad_era d ltac:(lia)) as Pd.
  unfold pad_check in Py, Pm, Pd.
  apply andb_prop in Py as [Py _]. apply andb_prop in Pm as [_ Pm].
  apply andb_prop in Pd as [_ Pd].
  destruct (Z.ltb_spec m 100); [|lia]. destruct (Z.ltb_spec d 100); [|lia].
  apply String.eqb_eq in Py, Pm, Pd. rewrite Py, Pm, Pd.
  replace ((100 * c + y) / 100) with c by (Z.to_euclidean_division_equations; lia).
  replace ((100 * c + y) mod 100) with y by (Z.to_euclidean_division_equations; lia).
  reflexivity.
Qed.

Lemma less_digit x x' r r' :
  0 <= x <= 9 -> 0 <= x' <= 9 ->
  less (String (digit_char x) r) (String (digit_char x') r')
  = if x <? x' then true else if x =? x' then less r r' else false.
Proof.
  intros Hx Hx'. cbn [less]. rewrite !digit_char_code by assumption.
  destruct (N.ltb_spec (Z.to_N (48 + x)) (Z.to_N (48 + x')));
    destruct (Z.ltb_spec x x'); try lia; try reflexivity.
  destruct (N.eqb_spec (Z.to_N (48 + x)) (Z.to_N (48 + x')));
    destruct (Z.eqb_spec x x'); try lia; reflexivity.
Qed.

Lemma less_pad2 n n' r r' :
  0 <= n <= 99 -> 0 <= n' <= 99 ->
  less (pad2 n r) (pad2 n' r')
  = if n <? n' then true else if n =? n' then less r r' else false.
Proof.
  intros Hn Hn'. unfold pad2.
  rewrite !less_digit by (Z.to_euclidean_division_equations; lia).
  destruct (Z.ltb_spec (n / 10) (n' / 10));
    destruct (Z.ltb_spec n n'); try reflexivity;
    try (exfalso; Z.to_euclidean_division_equations; lia).
  - destruct (Z.eqb_spec (n / 10) (n' / 10)).
    + destruct (Z.ltb_spec (n mod 10) (n' mod 10)); [reflexivity|].
      exfalso; Z.to_euclidean_division_equations; lia.
    + exfalso; Z.to_euclidean_division_equations; lia.
  - destruct (Z.eqb_spec (n / 10) (n' / 10)).
    + destruct (Z.ltb_spec (n mod 10) (n' mod 10));
        [exfalso; Z.to_euclidean_division_equations; lia|].
      destruct (Z.eqb_spec (n mod 10) (n' mod 10));
        destruct (Z.eqb_spec n n'); try reflexivity;
        exfalso; Z.to_euclidean_division_equations; lia.
    + destruct (Z.eqb_spec n n'); [|reflexivity].
      exfalso; Z.to_euclidean_division_equations; lia.
Qed.

(** The order of two date texts is the order of their dates. *)
Lemma less_date_text c y m d c' y' m' d' :
  0 <= c <= 99 -> 0 <= y <= 99 -> valid (100 * c + y) m d = true ->
  0 <= c' <= 99 -> 0 <= y' <= 99 -> valid (100 * c' + y') m' d' = true ->
  less (date_text c y m d) (date_text c' y' m' d')
  = (Date.ymd (100 * c + y) m d <? Date.ymd (100 * c' + y') m' d').
Proof.
  intros Hc Hy Hv Hc' Hy' Hv'.
  destruct (valid_bounds _ _ _ Hv) as [Hm Hd].
  destruct (valid_bounds _ _ _ Hv') as [Hm' Hd'].
  assert (Hlex : forall b : bool,
    (b = true -> 100 * c + y < 100 * c' + y' \/
       (100 * c + y = 100 * c' + y' /\ (m < m' \/ (m = m' /\ d < d')))) ->
    (b = false -> 100 * c' + y' < 100 * c + y \/
       (100 * c' + y' = 100 * c + y /\ (m' < m \/ (m' = m /\ d' <= d)))) ->
    b = (Date.ymd (100 * c + y) m d <? Date.ymd (100 * c' + y') m' d')).
  { intros b Ht Hf. destruct b.
    - symmetry. apply Z.ltb_lt. apply ymd_lt; auto.
    - symmetry. apply Z.ltb_ge.
      destruct (Hf eq_refl) as [H | [E [H | [E' H]]]].
      + apply Z.lt_le_incl, ymd_lt; auto.
      + apply Z.lt_le_incl, ymd_lt; auto.
      + destruct (Z.eq_dec d' d) as [->|Hne].
        * rewrite E, E'. lia.
        * apply Z.lt_le_incl, ymd_lt; auto. right. split; [exact E|].
          right. split; [exact E' | lia]. }
  unfold date_text.
  rewrite (less_pad2 c c') by lia. rewrite (less_pad2 y y') by lia.
  cbn [less]. rewrite N.ltb_irrefl, N.eqb_refl.
  rewrite (less_pad2 m m') by lia.
  cbn [less]. rewrite N.ltb_irrefl, N.eqb_refl.
  rewrite (less_pad2 d d') by lia. cbn [less].
  apply Hlex.
  - destruct (Z.ltb_spec c c'); [lia|]. destruct (Z.eqb_spec c c'); [|discriminate].
    destruct (Z.ltb_spec y y'); [lia|]. destruct (Z.eqb_spec y y'); [|discriminate].
    destruct (Z.ltb_spec m m'); [lia|]. destruct (Z.eqb_spec m m'); [|discriminate].
    destruct (Z.ltb_spec d d'); [lia|]. destruct (Z.eqb_spec d d'); discriminate.
  - destruct (Z.ltb_spec c c'); [discriminate|]. destruct (Z.eqb_spec c c'); [|lia].
    destruct (Z.ltb_spec y y'); [discriminate|]. destruct (Z.eqb_spec y y'); [|lia].
    destruct (Z.ltb_spec m m'); [discriminate|]. destruct (Z.eqb_spec m m'); [|lia].
    destruct (Z.ltb_spec d d'); [discriminate|]. lia.
Qed.

End DateStrings.

(** ** X1-X5: dates as the program reads, writes and compares them *)

(** X1: the text [Format] writes for a day of the years 0 to 9999 parses
    back to that day, so the key the index loop writes for a day is read
    back by [mustDate] as that day. *)
Theorem Parse_Format t :
  0 <= Civil.Year t <= 9999 -> Civil.Parse (Civil.Format t) = Some t.
Proof.
  intros Hy. unfold Civil.Year in Hy. pose proof (ymd_civil t) as H.
  destruct (Civil.civil t) as [[y m] d] eqn:E. cbn [fst] in Hy.
  destruct H as [Hv Ht].
  assert (Ey : y = 100 * (y / 100) + y mod 100)
    by (Z.to_euclidean_division_equations; lia).
  assert (Hc : 0 <= y / 100 <= 99) by (Z.to_euclidean_division_equations; lia).
  assert (Hr : 0 <= y mod 100 <= 99) by (Z.to_euclidean_division_equations; lia).
  rewrite Ey in Hv, Ht. clear E. subst t.
  rewrite (Format_text _ _ _ _ Hc Hr Hv).
  apply Parse_spec. exists (y / 100), (y mod 100), m, d. tauto.
Qed.

Lemma Parse_Format_witness :
  Civil.Format (Date.ymd 2024 2 29) = "2024-02-29"%string /\
  Civil.Parse (Civil.Format (Date.ymd 2024 2 29)) = Some (Date.ymd 2024 2 29).
Proof.
  split; [reflexivity|]. apply Parse_Format. vm_compute. split; congruence.
Defined.

(** X2: a date string that parses is the text [Format] writes for its
    day, and its year is from 0 to 9999: the strings of the events are the
    keys of the index. *)
Theorem Format_Parse s t :
  Civil.Parse s = Some t -> Civil.Format t = s /\ 0 <= Civil.Year t <= 9999.
Proof.
  intros (c & y & m & d & Hc & Hy & Hv & -> & ->)%Parse_spec.
  split; [now apply Format_text|].
  unfold Civil.Year. rewrite (civil_ymd _ _ _ Hv). cbn [fst]. lia.
Qed.

Lemma Format_Parse_witness :
  Civil.Format (Date.ymd 2024 1 8) = "2024-01-08"%string.
Proof. apply (Format_Parse "2024-01-08" (Date.ymd 2024 1 8)). reflexivity. Defined.

Lemma less_Parse s s' t t' :
  Civil.Parse s = Some t -> Civil.Parse s' = Some t' ->
  Civil.less s s' = (t <? t').
Proof.
  intros (c & y & m & d & Hc & Hy & Hv & -> & ->)%Parse_spec
         (c' & y' & m' & d' & Hc' & Hy' & Hv' & -> & ->)%Parse_spec.
  now apply less_date_text.
Qed.

(** X3: on date strings that parse, the comparison of strings of lines
    139, 208, 213 and 311 is the comparison of the days. *)
Theorem less_is_date_order s s' t t' :
  Civil.Parse s = Some t -> Civil.Parse s' = Some t' ->
  Civil.less s s' = (t <? t').
Proof. apply less_Parse. Qed.

Lemma less_is_date_order_witness :
  Civil.less "2023-12-31" "2024-01-01"
  = (Date.ymd 2023 12 31 <? Date.ymd 2024 1 1).
Proof. apply less_is_date_order; reflexivity. Defined.

(** X4: the day after a date of the calendar is the next day of the
    month, the first of the next month after the last day of a month, and
    the first of January after the 31st of December: the step
    [d.AddDate(0, 0, 1)] of the loops over days is the step to the next
    day number. *)
Theorem next_day y m d :
  Civil.valid y m d = true ->
  Civil.civil (Date.ymd y m d + 1)
  = if d <? Civil.daysIn m y then (y, m, d + 1)
    else if m <? 12 then (y, m + 1, 1)
    else (y + 1, 1, 1).
Proof.
  intros Hv. pose proof Hv as Hv0. unfold Civil.valid in Hv.
  apply andb_prop in Hv as [Hv Hd2]. apply andb_prop in Hv as [Hv Hd1].
  apply andb_prop in Hv as [Hm1 Hm2].
  apply Z.leb_le in Hd2, Hd1, Hm1, Hm2.
  destruct (Z.ltb_spec d (Civil.daysIn m y)).
  - replace (Date.ymd y m d + 1) with (Date.ymd y m (d + 1))
      by (rewrite (ymd_day y m d), (ymd_day y m (d + 1)); ring).
    apply civil_ymd. unfold Civil.valid.
    repeat (apply andb_true_intro; split); apply Z.leb_le; lia.
  - assert (d = Civil.daysIn m y) as Hd by lia.
    destruct (Z.ltb_spec m 12).
    + replace (Date.ymd y m d + 1) with (Date.ymd y (m + 1) 1)
        by (rewrite month_step, (ymd_day y m d) by lia; lia).
      apply civil_ymd. unfold Civil.valid.
      pose proof (daysIn_bounds (m + 1) y).
      repeat (apply andb_true_intro; split); apply Z.leb_le; lia.
    + assert (m = 12) as -> by lia.
      replace (Date.ymd y 12 d + 1) with (Date.ymd (y + 1) 1 1)
        by (rewrite year_step, (ymd_day y 12 d); rewrite Hd;
            change (Civil.daysIn 12 y) with 31; ring).
      apply civil_ymd. reflexivity.
Qed.

Lemma next_day_witness :
  Civil.civil (Date.ymd 2024 2 29 + 1) = (2024, 3, 1).
Proof. apply (next_day 2024 2 29). reflexivity. Defined.

(** X5: every event [listAllDayEvents] keeps has a start and an end that
    [mustDate] reads, and on two such events [Less] is the order of the
    start days. *)
Theorem Less_listed pages a b :
  In a (listed pages) -> In b (listed pages) ->
  exists ea eb,
    to_event a = Some ea /\ to_event b = Some eb /\
    Less a b = (Start ea <? Start eb).
Proof.
  assert (Hconv : forall i, In i (listed pages) ->
            exists s e bs be,
              Api.Start i = Some s /\ Api.End_ i = Some e /\
              Civil.Parse (Api.Date s) = Some bs /\
              Civil.Parse (Api.Date e) = Some be).
  { intros i [_ Hk]%filter_In. unfold all_day in Hk.
    destruct (Api.Start i) as [s|]; [|discriminate].
    destruct (Api.End_ i) as [e|]; [|discriminate].
    apply andb_prop in Hk as [_ Hk]. unfold dateSpan in Hk.
    destruct (Civil.Parse (Api.Date s)) as [bs|] eqn:Ps; [|discriminate].
    destruct (Civil.Parse (Api.Date e)) as [be|] eqn:Pe; [|discriminate].
    exists s, e, bs, be. repeat split; assumption. }
  intros Ha Hb.
  destruct (Hconv a Ha) as (sa & ea & bsa & bea & Hsa & Hea & Psa & Pea).
  destruct (Hconv b Hb) as (sb & eb & bsb & beb & Hsb & Heb & Psb & Peb).
  unfold to_event, Less, mustDate.
  rewrite Hsa, Hea, Hsb, Heb, Psa, Pea, Psb, Peb.
  do 2 eexists. split; [reflexivity|]. split; [reflexivity|]. cbn [Start].
  now apply less_Parse.
Qed.

Lemma Less_listed_witness :
  listed ApiSample.pages = [ApiSample.skiing; ApiSample.started] /\
  exists ea eb,
    to_event ApiSample.started = Some ea /\
    to_event ApiSample.skiing = Some eb /\
    Less ApiSample.started ApiSample.skiing = (Start ea <? Start eb).
Proof.
  split; [reflexivity|].
  apply (Less_listed ApiSample.pages); vm_compute; tauto.
Defined.

(** ** X6-X9: the description and its balance line *)

Section Description.

Import Notes.

Lemma Split_cons s : exists l rest, Split s = l :: rest.
Proof.
  destruct s as [|c r]; cbn [Split]; [now eexists _, _|].
  destruct (Ascii.eqb c newline); [now eexists _, _|].
  destruct (Split r); now eexists _, _.
Qed.

Lemma Join_cons c l rest :
  Join (String c l :: rest) = String c (Join (l :: rest)).
Proof. destruct rest; reflexivity. Qed.

Lemma Join_Split_id s : Join (Split s) = s.
Proof.
  induction s as [|c r IH]; [reflexivity|]. cbn [Split].
  destruct (Split_cons r) as (l & rest & E). rewrite E in *.
  destruct (Ascii.eqb_spec c newline) as [->|_].
  - change (Join (EmptyString :: l :: rest))
      with (String newline (Join (l :: rest))).
    now rewrite IH.
  - now rewrite Join_cons, IH.
Qed.

Lemma append_line a c l b :
  String.append (String.append a (String c l)) b
  = String.append a (String c (String.append l b)).
Proof.
  induction a as [|x a IH]; [reflexivity|].
  change (String x (String.append (String.append a (String c l)) b)
          = String x (String.append a (String c (String.append l b)))).
  now rewrite IH.
Qed.

Lemma Join_snoc lines b :
  lines <> [] ->
  Join (lines ++ [b]) = String.append (Join lines) (String newline b).
Proof.
  induction lines as [|l rest IH]; intros Hne; [congruence|].
  destruct rest as [|l2 rest'].
  - reflexivity.
  - change (Join ((l :: l2 :: rest') ++ [b]))
      with (String.append l (String newline (Join ((l2 :: rest') ++ [b])))).
    rewrite IH by discriminate.
    change (Join (l :: l2 :: rest'))
      with (String.append l (String newline (Join (l2 :: rest')))).
    now rewrite append_line.
Qed.

Lemma Split_snoc p l :
  one_line l = true ->
  Split (String.append p (String newline l)) = Split p ++ [l].
Proof.
  intros Hl. induction p as [|c p IH].
  - change (Split (String newline l) = [EmptyString; l]).
    cbn [Split]. rewrite Ascii.eqb_refl. now rewrite (Split_line l Hl).
  - change (Split (String c (String.append p (String newline l)))
            = Split (String c p) ++ [l]).
    cbn [Split]. rewrite IH.
    destruct (Ascii.eqb c newline); [reflexivity|].
    destruct (Split_cons p) as (h & t & ->). reflexivity.
Qed.

Lemma Split_last_line s : one_line (List.last (Split s) EmptyString) = true.
Proof.
  pose proof (Split_lines s) as H. destruct (Split_cons s) as (l & rest & E).
  rewrite E in *. clear E. revert l H.
  induction rest as [|l2 rest IH]; intros l H.
  - now inversion H.
  - inversion H; subst. now apply IH.
Qed.

End Description.

(** X6: joining the lines of a text gives the text back. *)
Theorem Join_Split s : Notes.Join (Notes.Split s) = s.
Proof. apply Join_Split_id. Qed.

(** X7: when the last line of the description does not start with
    "vacation from ", the new description is the old one, a line break and
    the balance line: nothing of the description is lost. *)
Theorem merge_appends description balanceline :
  Notes.HasPrefix (List.last (Notes.Split description) EmptyString)
    Notes.marker = false ->
  Notes.merge description balanceline
  = String.append description (String Notes.newline balanceline).
Proof.
  intros H. unfold Notes.merge. rewrite H, andb_false_r.
  destruct (Split_cons description) as (l & rest & E).
  rewrite Join_snoc by (rewrite E; discriminate).
  now rewrite Join_Split_id.
Qed.

Lemma merge_appends_witness :
  Notes.merge "Skiing in Davos" "vacation from a to b"
  = String.append "Skiing in Davos"
      (String Notes.newline "vacation from a to b").
Proof. apply merge_appends. reflexivity. Defined.

(** X8: when the description ends with a line that starts with
    "vacation from ", that line is replaced by the balance line and the
    text before it is kept; a description that is only such a line
    becomes the balance line. *)
Theorem merge_replaces before line balanceline :
  one_line line = true ->
  Notes.HasPrefix line Notes.marker = true ->
  Notes.merge (String.append before (String Notes.newline line)) balanceline
  = String.append before (String Notes.newline balanceline) /\
  Notes.merge line balanceline = balanceline.
Proof.
  intros Hl Hp. unfold Notes.merge. split.
  - rewrite (Split_snoc before line Hl), last_last, Hp, removelast_last.
    destruct (Split_cons before) as (l & rest & E).
    rewrite length_app, Nat.add_comm. cbn [length Nat.add Nat.ltb Nat.leb andb].
    rewrite Join_snoc by (rewrite E; discriminate).
    now rewrite Join_Split_id.
  - rewrite (Split_line line Hl). cbn [List.last length]. rewrite Hp.
    reflexivity.
Qed.

Lemma merge_replaces_witness :
  Notes.merge
    (String.append "Skiing" (String Notes.newline "vacation from a to b"))
    "vacation from c to d"
  = String.append "Skiing" (String Notes.newline "vacation from c to d").
Proof. apply merge_replaces; reflexivity. Defined.

(** X9: with a balance line of the program's format, [updateEvent] sends
    no patch exactly in a dry run or when the description already ends
    with that balance line. *)
Theorem updateEvent_silent noUpdate description rest :
  one_line rest = true ->
  let balanceline := String.append Notes.marker rest in
  updateEvent noUpdate description balanceline = None <->
  noUpdate = true \/
  List.last (Notes.Split description) EmptyString = balanceline.
Proof.
  intros Hrest balanceline. unfold updateEvent.
  destruct noUpdate; [split; [now left | reflexivity]|].
  assert (Hb : one_line balanceline = true) by now apply marker_line.
  assert (Hp : Notes.HasPrefix balanceline Notes.marker = true)
    by apply marker_prefix.
  destruct (Split_cons description) as (l & lines & E).
  destruct (String.eqb_spec (Notes.merge description balanceline) description)
    as [Heq|Hne].
  - split; [intros _; right | reflexivity].
    apply (f_equal Notes.Split) in Heq.
    destruct (merge_lines description balanceline) as (kept & Hkept & Hm).
    rewrite Hm, Split_Join in Heq.
    + rewrite <- Heq. apply last_last.
    + now destruct kept.
    + apply Forall_app. split; [exact Hkept | now repeat constructor].
  - split; [discriminate|]. intros [Hd | Hlast]; [discriminate|].
    exfalso. apply Hne. unfold Notes.merge.
    rewrite Hlast, Hp, E. cbn [length Nat.ltb Nat.leb andb].
    rewrite <- Hlast, <- E.
    rewrite <- (app_removelast_last EmptyString) by (rewrite E; discriminate).
    apply Join_Split_id.
Qed.

Lemma updateEvent_silent_witness :
  updateEvent false
    (String.append "Skiing" (String Notes.newline "vacation from a to b"))
    (String.append Notes.marker "a to b") = None.
Proof.
  apply (updateEvent_silent false _ "a to b"); [reflexivity|].
  right. reflexivity.
Defined.

(** ** X10-X11: the public holidays *)

Lemma mark_lookup label k : forall d (r : gmap Z string) x,
  mark label k d r !! x
  = if decide (d <= x < d + Z.of_nat k) then Some label else r !! x.
Proof.
  induction k as [|k IH]; intros d r x.
  - cbn [mark]. rewrite decide_False by lia. reflexivity.
  - cbn [mark]. rewrite IH.
    destruct (decide (d + 1 <= x < d + 1 + Z.of_nat k)) as [Hin|Hout].
    + rewrite decide_True by lia. reflexivity.
    + destruct (decide (x = d)) as [->|Hne].
      * rewrite decide_True by lia. apply lookup_insert_eq.
      * rewrite decide_False by lia. now apply lookup_insert_ne.
Qed.

(** One event of the holiday calendar: it labels the day when it marks
    it and leaves it alone otherwise. *)
Lemma holiday_step (r : gmap Z string) ev d :
  (marks d ev ->
   (if elsewhere ev then r
    else mark (Summary ev) (Z.to_nat (End_ ev - Start ev)) (Start ev) r) !! d
   = Some (Summary ev)) /\
  (~ marks d ev ->
   (if elsewhere ev then r
    else mark (Summary ev) (Z.to_nat (End_ ev - Start ev)) (Start ev) r) !! d
   = r !! d).
Proof.
  unfold marks. destruct (elsewhere ev).
  - split; [intros [H _]; discriminate | reflexivity].
  - rewrite mark_lookup. split.
    + intros [_ H]. rewrite decide_True by lia. reflexivity.
    + intros H. rewrite decide_False; [reflexivity|].
      intros H'. apply H. split; [reflexivity | lia].
Qed.

Lemma marks_dec d ev : marks d ev \/ ~ marks d ev.
Proof.
  unfold marks. destruct (elsewhere ev); [right; intros [? _]; discriminate|].
  destruct (decide (Start ev <= d < End_ ev)); [left | right]; tauto.
Qed.

Lemma holidays_fold events : forall (r : gmap Z string) d label,
  fold_left
    (fun r ev =>
       if elsewhere ev then r
       else mark (Summary ev) (Z.to_nat (End_ ev - Start ev)) (Start ev) r)
    events r !! d = Some label <->
  (exists pre ev post,
     events = pre ++ ev :: post /\ marks d ev /\ Summary ev = label /\
     Forall (fun e => ~ marks d e) post) \/
  (Forall (fun e => ~ marks d e) events /\ r !! d = Some label).
Proof.
  induction events as [|ev rest IH]; intros r d label.
  - cbn [fold_left]. split.
    + intros H. right. split; [constructor | exact H].
    + intros [(pre & ev & post & E & _) | [_ H]]; [|exact H].
      destruct pre; discriminate E.
  - cbn [fold_left]. rewrite IH.
    destruct (holiday_step r ev d) as [Hyes Hno]. split.
    + intros [(pre & e & post & -> & Hm & Hl & Hpost) | [Hrest Hr]].
      * left. exists (ev :: pre), e, post. tauto.
      * destruct (marks_dec d ev) as [Hm | Hm].
        -- left. exists [], ev, rest. rewrite (Hyes Hm) in Hr.
           injection Hr as Hr. tauto.
        -- right. rewrite (Hno Hm) in Hr. split; [now constructor | exact Hr].
    + intros [(pre & e & post & E & Hm & Hl & Hpost) | [Hall Hr]].
      * destruct pre as [|p pre]; cbn [app] in E; injection E as -> ->.
        -- right. split; [exact Hpost|]. rewrite (Hyes Hm). now f_equal.
        -- left. exists pre, e, post. tauto.
      * inversion Hall as [|? ? Hm Hrest]; subst. right.
        split; [exact Hrest|]. now rewrite (Hno Hm).
Qed.

Lemma getPublicHolidays_lookup_aux events d label :
  (exists pre ev post,
     events = pre ++ ev :: post /\ marks d ev /\ Summary ev = label /\
     Forall (fun e => ~ marks d e) post) ->
  getPublicHolidays events !! d = Some label.
Proof.
  intros H. unfold getPublicHolidays. rewrite holidays_fold. now left.
Qed.

(** X10: a day is in the holiday map exactly when some event of the
    holiday calendar that is not a holiday elsewhere spans it, and its
    label is the summary of the last such event. *)
Theorem getPublicHolidays_lookup events d label :
  getPublicHolidays events !! d = Some label <->
  exists pre ev post,
    events = pre ++ ev :: post /\ marks d ev /\ Summary ev = label /\
    Forall (fun e => ~ marks d e) post.
Proof.
  unfold getPublicHolidays. rewrite holidays_fold. split.
  - intros [H | [_ H]]; [exact H|]. rewrite lookup_empty in H. discriminate.
  - intros H. now left.
Qed.

Lemma getPublicHolidays_lookup_witness :
  getPublicHolidays HolidaySample.events !! Sample.jan 2
  = Some "Berchtold Day"%string /\
  getPublicHolidays HolidaySample.events !! Sample.jan 6 = None.
Proof.
  split.
  - apply getPublicHolidays_lookup.
    exists [HolidaySample.newyear], HolidaySample.berchtold,
      [HolidaySample.epiphany].
    split; [reflexivity|]. split; [split; [reflexivity | vm_compute; split; congruence]|].
    split; [reflexivity|]. repeat constructor.
    intros [H _]. vm_compute in H. discriminate H.
  - destruct (getPublicHolidays HolidaySample.events !! Sample.jan 6)
      as [label|] eqn:E; [|reflexivity].
    apply getPublicHolidays_lookup in E
      as (pre & ev & post & Hev & [Hk Hd] & _).
    assert (Hin : In ev HolidaySample.events)
      by (rewrite Hev; apply in_or_app; right; now left).
    destruct Hin as [<- | [<- | [<- | []]]]; vm_compute in Hk, Hd;
      try discriminate Hk; destruct Hd as [H1 H2];
      try (now contradict H1); now contradict H2.
Defined.

Lemma last_marking d events :
  Exists (marks d) events ->
  exists pre ev post,
    events = pre ++ ev :: post /\ marks d ev /\
    Forall (fun e => ~ marks d e) post.
Proof.
  induction events as [|ev rest IH]; intros H; [inversion H|].
  assert (Hrest : Exists (marks d) rest \/ Forall (fun e => ~ marks d e) rest).
  { clear. induction rest as [|e rest IH]; [right; constructor|].
    destruct IH as [IH | IH]; [left; now constructor|].
    destruct (marks_dec d e); [left; now constructor | right; now constructor]. }
  destruct Hrest as [Hex | Hnone].
  - destruct (IH Hex) as (pre & e & post & -> & Hm & Hpost).
    exists (ev :: pre), e, post. tauto.
  - inversion H as [? ? Hm | ? ? Hm]; subst.
    + exists [], ev, rest. tauto.
    + exfalso. apply List.Exists_exists in Hm as (e & Hin & Hm).
      rewrite List.Forall_forall in Hnone. exact (Hnone e Hin Hm).
Qed.

Lemma count_workdays_none holidays a n :
  0 <= n ->
  (forall d, a <= d < a + n -> is_workday holidays d = false) ->
  count_workdays holidays a (a + n) = 0.
Proof.
  intros Hn. revert n Hn a.
  apply (natlike_ind (fun n => forall a,
           (forall d, a <= d < a + n -> is_workday holidays d = false) ->
           count_workdays holidays a (a + n) = 0)).
  - intros a _. replace (a + 0) with a by lia. apply count_workdays_empty.
  - intros n Hn IH a H. rewrite count_workdays_first by lia.
    rewrite (H a) by lia.
    replace (a + Z.succ n) with (a + 1 + n) by lia.
    rewrite IH; [reflexivity|]. intros d Hd. apply H. lia.
Qed.

(** X11: when every kept event of the holiday calendar has a summary, no
    day that such an event spans is a working day, and the span of the
    event has no working day at all. *)
Theorem holiday_span_not_worked events ev :
  Forall (fun e => elsewhere e = false -> Summary e <> EmptyString) events ->
  In ev events -> elsewhere ev = false -> Start ev <= End_ ev ->
  (forall d, Start ev <= d < End_ ev ->
     is_workday (getPublicHolidays events) d = false) /\
  count_workdays (getPublicHolidays events) (Start ev) (End_ ev) = 0.
Proof.
  intros Hlab Hin Hkeep Hse.
  assert (Hday : forall d, Start ev <= d < End_ ev ->
            is_workday (getPublicHolidays events) d = false).
  { intros d Hd.
    assert (Hex : Exists (marks d) events).
    { apply List.Exists_exists. exists ev. split; [exact Hin | now split]. }
    destruct (last_marking d events Hex) as (pre & e & post & E & Hm & Hpost).
    assert (Hl : getPublicHolidays events !! d = Some (Summary e)).
    { apply getPublicHolidays_lookup_aux. now exists pre, e, post. }
    unfold is_workday. rewrite Hl. cbn [default from_option id].
    rewrite List.Forall_forall in Hlab.
    assert (Hne : Summary e <> EmptyString).
    { apply Hlab; [|apply Hm]. rewrite E. apply in_or_app. right. now left. }
    destruct (String.eqb_spec (Summary e) EmptyString); [contradiction|].
    reflexivity. }
  split; [exact Hday|].
  replace (End_ ev) with (Start ev + (End_ ev - Start ev)) by lia.
  apply count_workdays_none; [lia|]. intros d Hd. apply Hday. lia.
Qed.

Lemma holiday_span_not_worked_witness :
  count_workdays (getPublicHolidays HolidaySample.events)
    (Sample.jan 2) (Sample.jan 3) = 0.
Proof.
  apply (holiday_span_not_worked HolidaySample.events HolidaySample.berchtold).
  - repeat constructor; intros _; discriminate.
  - right. now left.
  - reflexivity.
  - vm_compute. congruence.
Defined.

(** ** X12-X14: the range of the index *)

Lemma end_date_fold events : forall e0,
  let e := fold_left (fun e v => if e <? End_ v then End_ v else e) events e0 in
  e0 <= e /\ Forall (fun ev => End_ ev <= e) events /\
  (e = e0 \/ exists ev, In ev events /\ e = End_ ev).
Proof.
  induction events as [|v rest IH]; intros e0; cbn [fold_left].
  - split; [lia|]. split; [constructor | now left].
  - specialize (IH (if e0 <? End_ v then End_ v else e0)). cbn zeta in IH.
    destruct IH as (H1 & H2 & H3). cbn zeta.
    set (e := fold_left _ rest _) in *.
    destruct (Z.ltb_spec e0 (End_ v)).
    + split; [lia|]. split; [constructor; [lia | exact H2]|].
      right. destruct H3 as [-> | (ev & Hin & ->)].
      * exists v. split; [now left | reflexivity].
      * exists ev. split; [now right | reflexivity].
    + split; [lia|]. split; [constructor; [lia | exact H2]|].
      destruct H3 as [-> | (ev & Hin & ->)]; [now left|].
      right. exists ev. split; [now right | reflexivity].
Qed.

(** X12: [endDate] is the start of the first event or the end of an
    event, and no event ends after it. *)
Theorem end_date_latest first events :
  Start first <= end_date first events /\
  Forall (fun ev => End_ ev <= end_date first events) events /\
  (end_date first events = Start first \/
   exists ev, In ev events /\ end_date first events = End_ ev).
Proof. apply (end_date_fold events (Start first)). Qed.

(** X13: a day outside [first .. last] is no key of the index, and reads
    as 0. *)
Theorem index_outside holidays first last d :
  d < first \/ last < d ->
  build_workdays holidays first last !! d = None /\
  wd (build_workdays holidays first last) d = 0.
Proof.
  intros H.
  assert (E : build_workdays holidays first last !! d = None).
  { unfold build_workdays. rewrite workdays_loop_lookup.
    rewrite decide_False; [apply lookup_empty|]. lia. }
  split; [exact E|]. unfold wd. now rewrite E.
Qed.

Lemma index_outside_witness :
  wd Sample.workdays (Sample.jan 31 + 1) = 0.
Proof.
  apply (index_outside Sample.holidays (Sample.jan 1) (Sample.jan 31)).
  right. vm_compute. reflexivity.
Defined.

Lemma count_workdays_day holidays d :
  count_workdays holidays d (d + 1)
  = if is_workday holidays d then 1 else 0.
Proof.
  rewrite count_workdays_first by lia. rewrite count_workdays_empty.
  destruct (is_workday holidays d); reflexivity.
Qed.

(** X14: from a day of the range to the next the index goes up by one
    when the day is a working day and stays otherwise. *)
Theorem index_step holidays first last d :
  first <= d -> d < last ->
  wd (build_workdays holidays first last) (d + 1)
  = wd (build_workdays holidays first last) d
    + (if is_workday holidays d then 1 else 0).
Proof.
  intros H1 H2.
  pose proof (wd_build_diff holidays first last d (d + 1)
                ltac:(lia) ltac:(lia) ltac:(lia)) as H.
  rewrite count_workdays_day in H. lia.
Qed.

Lemma index_step_witness :
  wd Sample.workdays (Sample.jan 6 + 1) = wd Sample.workdays (Sample.jan 6) + 0.
Proof.
  apply (index_step Sample.holidays (Sample.jan 1) (Sample.jan 31) (Sample.jan 6));
    vm_compute; congruence.
Defined.

(** ** X15-X17: how a run ends *)

Lemma accrue_lastDate st ev l :
  lastDate (accrue st ev) = Some l -> l = End_ ev /\ lastDate st <> None.
Proof.
  unfold accrue. destruct (lastDate st) as [l0|] eqn:E.
  - cbn. intros [= <-]. split; [reflexivity | discriminate].
  - rewrite E. discriminate.
Qed.

Lemma accrue_lastDate_none st ev :
  lastDate (accrue st ev) = None <-> lastDate st = None.
Proof.
  unfold accrue. destruct (lastDate st) as [l0|] eqn:E.
  - split; discriminate.
  - now rewrite E.
Qed.

Lemma loop_body_started workdays st ev :
  started st ->
  match loop_body workdays st ev with
  | Continue st' _ => started st'
  | Abort why _ => why = NoStartDate
  end.
Proof.
  intros Hst. unfold started in *.
  destruct (accrue_frame st ev) as (Hs & _).
  destruct (classify ev) eqn:Hc.
  - rewrite (loop_body_start _ _ _ Hc). unfold on_start. cbn.
    destruct (Date.IsZero (startDate (accrue st ev))) eqn:Hz; [discriminate|].
    intros E. apply accrue_lastDate_none in E. rewrite Hs, (Hst E) in Hz. discriminate.
  - rewrite (loop_body_vacation _ _ _ Hc). unfold on_vacation.
    destruct (Date.IsZero (startDate (accrue st ev))) eqn:Hz; [reflexivity|].
    destruct (lastDate (accrue st ev)) as [l|] eqn:E.
    + destruct (End_ ev <? l); cbn; [rewrite E|]; discriminate.
    + apply accrue_lastDate_none in E. rewrite Hs, (Hst E) in Hz. discriminate.
  - rewrite (loop_body_ignored _ _ _ Hc). intros E.
    apply accrue_lastDate_none in E. rewrite Hs. now apply Hst.
Qed.

Lemma run_started workdays events : forall st log,
  started st ->
  match run workdays st log events with
  | Done _ _ => True
  | Aborted why _ _ => why = NoStartDate
  end.
Proof.
  induction events as [|ev rest IH]; intros st log Hst; [exact I|].
  cbn [run]. pose proof (loop_body_started workdays st ev Hst) as H.
  destruct (loop_body workdays st ev); [now apply IH | exact H].
Qed.

(** X15: a run never ends on the nil dereference of [lastDate] at line
    208: when it aborts, it is on the missing start date. *)
Theorem no_nil_dereference workdays events why st log :
  run workdays init [] events = Aborted why st log -> why = NoStartDate.
Proof.
  intros H. pose proof (run_started workdays events init []) as Hr.
  rewrite H in Hr. apply Hr. intros _. reflexivity.
Qed.

Lemma no_nil_dereference_witness :
  run Sample.workdays init [] [Sample.lunch; Sample.week]
  = Aborted NoStartDate init [] /\
  NoStartDate = NoStartDate.
Proof.
  split; [reflexivity|].
  apply (no_nil_dereference Sample.workdays [Sample.lunch; Sample.week]
           NoStartDate init []).
  reflexivity.
Defined.

(** What the loop body emits: nothing for an ignored marker, and for every
    other marker on which it goes on one snapshot, of that marker. *)
Lemma loop_body_emits workdays st ev st' out :
  loop_body workdays st ev = Continue st' out ->
  match classify ev with
  | Ignored => out = None
  | _ => exists u, out = Some u /\
           Summary (u_ev u) = Summary ev /\ End_ (u_ev u) = End_ ev
  end.
Proof.
  destruct (classify ev) eqn:Hc.
  - rewrite (loop_body_start _ _ _ Hc). unfold on_start. intros [= <- <-].
    eexists. split; [reflexivity|]. split; reflexivity.
  - rewrite (loop_body_vacation _ _ _ Hc). unfold on_vacation.
    destruct (Date.IsZero (startDate (accrue st ev))); [discriminate|].
    destruct (lastDate (accrue st ev)) as [l|] eqn:E; [|discriminate].
    apply accrue_lastDate in E as [-> _]. rewrite Z.ltb_irrefl.
    intros [= <- <-]. eexists. split; [reflexivity|]. split; reflexivity.
  - rewrite (loop_body_ignored _ _ _ Hc). now intros [= <- <-].
Qed.

Lemma recognized_cons ev rest :
  recognized (ev :: rest)
  = match classify ev with
    | Ignored => recognized rest
    | _ => ev :: recognized rest
    end.
Proof. unfold recognized. cbn [List.filter]. now destruct (classify ev). Qed.

Lemma run_emits workdays events : forall st log st' log',
  run workdays st log events = Done st' log' ->
  map (fun u => (Summary (u_ev u), End_ (u_ev u))) log'
  = map (fun u => (Summary (u_ev u), End_ (u_ev u))) log
    ++ map (fun ev => (Summary ev, End_ ev)) (recognized events).
Proof.
  induction events as [|ev rest IH]; intros st log st' log'; cbn [run].
  - intros [= <- <-]. cbn. now rewrite app_nil_r.
  - destruct (loop_body workdays st ev) as [st1 out|] eqn:Hb; [|discriminate].
    intros Hrun. rewrite (IH _ _ _ _ Hrun), recognized_cons.
    pose proof (loop_body_emits _ _ _ _ _ Hb) as He.
    destruct (classify ev).
    + destruct He as (u & -> & Hs & Hend). cbn [emitted map].
      rewrite map_app, <- app_assoc. cbn [map app]. now rewrite Hs, Hend.
    + destruct He as (u & -> & Hs & Hend). cbn [emitted map].
      rewrite map_app, <- app_assoc. cbn [map app]. now rewrite Hs, Hend.
    + subst out. cbn [emitted]. now rewrite app_nil_r.
Qed.

(** X16: a run that completes has emitted one snapshot for each marker
    that is a start or a vacation, in their order and with their end date:
    no vacation is passed over as already accounted for. *)
Theorem one_snapshot_each workdays events st log :
  run workdays init [] events = Done st log ->
  map (fun u => (Summary (u_ev u), End_ (u_ev u))) log
  = map (fun ev => (Summary ev, End_ ev)) (recognized events).
Proof. intros H. now rewrite (run_emits _ _ _ _ _ _ H). Qed.

Lemma one_snapshot_each_witness :
  exists st log,
    run Sample.workdays init []
      [Sample.start100; Sample.fortnight; Sample.dentist; Sample.inside]
    = Done st log /\
    length log = 3%nat.
Proof.
  eexists _, _. split; [vm_compute; reflexivity|].
  match goal with
  | |- length ?l = _ =>
      rewrite <- (length_map (fun u => (Summary (u_ev u), End_ (u_ev u))) l)
  end.
  rewrite (one_snapshot_each Sample.workdays
             [Sample.start100; Sample.fortnight; Sample.dentist; Sample.inside]
             _ _ ltac:(vm_compute; reflexivity)).
  reflexivity.
Defined.

Lemma loop_body_employed workdays st ev :
  employed st ->
  (classify ev = EmploymentStart -> Date.IsZero (Start ev) = false) ->
  exists st' out, loop_body workdays st ev = Continue st' out /\ employed st'.
Proof.
  intros [Hz Hl] Hev. destruct (lastDate st) as [l|] eqn:El; [|congruence].
  destruct (accrue_frame st ev) as (Hs & _).
  destruct (accrue_set st ev l El) as [Hl' _].
  destruct (classify ev) eqn:Hc.
  - rewrite (loop_body_start _ _ _ Hc). unfold on_start.
    do 2 eexists. split; [reflexivity|]. split; cbn.
    + now apply Hev.
    + rewrite Hs, Hz, Hl'. discriminate.
  - rewrite (loop_body_vacation _ _ _ Hc).
    destruct (on_vacation_after_accrue workdays st ev l El Hz) as (u & -> & _).
    do 2 eexists. split; [reflexivity|]. split; [exact Hz | discriminate].
  - rewrite (loop_body_ignored _ _ _ Hc).
    do 2 eexists. split; [reflexivity|]. split; [now rewrite Hs|].
    rewrite Hl'. discriminate.
Qed.

Lemma run_employed workdays events : forall st log,
  employed st ->
  Forall (fun ev => classify ev = EmploymentStart ->
                    Date.IsZero (Start ev) = false) events ->
  exists st' log', run workdays st log events = Done st' log'.
Proof.
  induction events as [|ev rest IH]; intros st log Hst Hall.
  - now exists st, log.
  - inversion Hall as [|? ? Hev Hrest]; subst.
    destruct (loop_body_employed workdays st ev Hst Hev)
      as (st1 & out & Hb & Hst1).
    cbn [run]. rewrite Hb. now apply IH.
Qed.

Lemma run_unset workdays events : forall st log,
  lastDate st = None -> Date.IsZero (startDate st) = true ->
  Forall (fun ev => classify ev = EmploymentStart ->
                    Date.IsZero (Start ev) = false) events ->
  (exists st' log', run workdays st log events = Done st' log') <->
  match recognized events with
  | [] => True
  | ev :: _ => classify ev = EmploymentStart
  end.
Proof.
  induction events as [|ev rest IH]; intros st log Hl Hz Hall.
  - cbn. split; [trivial | intros _; now exists st, log].
  - inversion Hall as [|? ? Hev Hrest]; subst.
    rewrite recognized_cons. cbn [run].
    destruct (classify ev) eqn:Hc.
    + cbv iota. split; [intros _; exact Hc | intros _].
      rewrite (loop_body_start _ _ _ Hc), (accrue_unset _ _ Hl).
      unfold on_start. rewrite Hz.
      apply run_employed; [|exact Hrest]. split; cbn.
      * now apply Hev.
      * discriminate.
    + cbv iota. rewrite (loop_body_vacation _ _ _ Hc), (accrue_unset _ _ Hl).
      unfold on_vacation. rewrite Hz.
      split; [intros (? & ? & H); discriminate H | congruence].
    + rewrite (loop_body_ignored _ _ _ Hc), (accrue_unset _ _ Hl).
      now apply IH.
Qed.

(** X17: when no start marker is dated 0001-01-01, the run completes
    exactly when the first marker that is not ignored, if there is one, is
    a start marker. *)
Theorem run_completes workdays events :
  Forall (fun ev => classify ev = EmploymentStart ->
                    Date.IsZero (Start ev) = false) events ->
  (exists st log, run workdays init [] events = Done st log) <->
  match recognized events with
  | [] => True
  | ev :: _ => classify ev = EmploymentStart
  end.
Proof. intros H. now apply run_unset. Qed.

Lemma run_completes_witness :
  exists st log,
    run Sample.workdays init []
      [Sample.lunch; Sample.start100; Sample.week] = Done st log.
Proof.
  apply run_completes.
  - repeat constructor; intros _; reflexivity.
  - reflexivity.
Defined.

(** ** X18-X21: what a vacation costs *)

(** In a run of [main] every date the loop looks up is a key of the
    index: the dates of the markers and [lastVacationDate] lie between the
    first start and [endDate]. *)
Lemma run_in_range holidays lo hi events : forall st log,
  Forall (fun ev => lo <= Start ev /\ Start ev <= End_ ev /\ End_ ev <= hi)
    events ->
  (forall lv, lastVacationDate st = Some lv -> lo <= lv <= hi) ->
  Forall (fun u => classify (u_ev u) = VacationBooking ->
                   Start (u_ev u) <= End_ (u_ev u) ->
                   u_daysOff u
                   = inject_Z (count_workdays holidays
                                 (Start (u_ev u)) (End_ (u_ev u)))) log ->
  Forall (fun u => classify (u_ev u) = VacationBooking ->
                   Start (u_ev u) <= End_ (u_ev u) ->
                   u_daysOff u
                   = inject_Z (count_workdays holidays
                                 (Start (u_ev u)) (End_ (u_ev u))))
    (log_of (run (build_workdays holidays lo hi) st log events)).
Proof.
  induction events as [|ev rest IH]; intros st log Hev Hlv Hlog; [exact Hlog|].
  inversion Hev as [|? ? (Hlo & Hse & Hhi) Hrest]; subst. cbn [run].
  destruct (accrue_frame st ev) as (Hs & _ & _ & Hv).
  destruct (classify ev) eqn:Hc.
  - rewrite (loop_body_start _ _ _ Hc). unfold on_start. apply IH.
    + exact Hrest.
    + cbn. now rewrite Hv.
    + apply Forall_app. split; [exact Hlog|]. repeat constructor. cbn.
      intros Hc'. congruence.
  - rewrite (loop_body_vacation _ _ _ Hc). unfold on_vacation.
    destruct (Date.IsZero (startDate (accrue st ev))); [exact Hlog|].
    destruct (lastDate (accrue st ev)) as [l|] eqn:El; [|exact Hlog].
    apply accrue_lastDate in El as [-> _]. rewrite Z.ltb_irrefl. apply IH.
    + exact Hrest.
    + cbn. intros lv [= <-]. lia.
    + apply Forall_app. split; [exact Hlog|]. repeat constructor. cbn.
      intros _ Hle. f_equal. apply wd_build_diff; [|exact Hle | exact Hhi].
      unfold patched_start. rewrite Hv.
      destruct (lastVacationDate st) as [lv|] eqn:E; [|exact Hlo].
      destruct (Start ev <? lv); [apply (Hlv lv eq_refl) | exact Hlo].
  - rewrite (loop_body_ignored _ _ _ Hc). apply IH.
    + exact Hrest.
    + now rewrite Hv.
    + cbn [emitted]. now rewrite app_nil_r.
Qed.

(** X18: in a run of [main] on events of which the first starts first and
    none ends before it starts, every snapshot of a vacation whose span,
    after the overlap patch, is not reversed carries as days off the
    working days of that span: no look-up misses the index. *)
Theorem main_days_off holidays first rest u :
  Forall (fun ev => Start first <= Start ev /\ Start ev <= End_ ev)
    (first :: rest) ->
  In u (log_after holidays (first :: rest)) ->
  classify (u_ev u) = VacationBooking ->
  Start (u_ev u) <= End_ (u_ev u) ->
  u_daysOff u
  = inject_Z (count_workdays holidays (Start (u_ev u)) (End_ (u_ev u))).
Proof.
  intros Hev Hin. unfold log_after, main in Hin.
  pose proof (end_date_fold (first :: rest) (Start first)) as (_ & Hmax & _).
  fold (end_date first (first :: rest)) in Hmax.
  pose proof (run_in_range holidays (Start first)
                (end_date first (first :: rest)) (first :: rest) init []) as H.
  assert (Hrange : Forall (fun ev => Start first <= Start ev /\
                             Start ev <= End_ ev /\
                             End_ ev <= end_date first (first :: rest))
                     (first :: rest)).
  { rewrite List.Forall_forall in Hev, Hmax. apply List.Forall_forall.
    intros ev Hev'. destruct (Hev ev Hev'). specialize (Hmax ev Hev'). lia. }
  specialize (H Hrange ltac:(intros lv E; discriminate E) ltac:(constructor)).
  rewrite List.Forall_forall in H. now apply H.
Qed.

Lemma main_days_off_witness :
  exists u,
    nth_error (log_after Sample.holidays
                 [Sample.start100; Sample.fortnight; Sample.overlap]) 2
    = Some u /\
    u_daysOff u
    = inject_Z (count_workdays Sample.holidays (Sample.jan 20) (Sample.jan 25)).
Proof.
  eexists. split; [vm_compute; reflexivity|].
  apply (main_days_off Sample.holidays Sample.start100
           [Sample.fortnight; Sample.overlap]).
  - repeat constructor; vm_compute; congruence.
  - vm_compute. tauto.
  - reflexivity.
  - vm_compute. congruence.
Defined.

Lemma effective_bounds (f c x : Q) (h : bool) :
  (0 <= f <= 1)%Q -> (0 <= x)%Q ->
  (0 <= effective f c x h)%Q /\
  ((effective f c x h <= x)%Q \/ effective f c x h = 1 # 2).
Proof.
  intros [Hf0 Hf1] Hx. unfold effective.
  destruct (Qle_bool (5 * f) c).
  - assert (0 <= f * x)%Q by now apply Qmult_le_0_compat.
    assert (f * x <= 1 * x)%Q by (apply Qmult_le_compat_r; assumption).
    split; [assumption | left; lra].
  - destruct (negb (Qle_bool (101 # 100) c) && h).
    + split; [discriminate | now right].
    + split; [assumption | left; apply Qle_refl].
Qed.

(** X19: a vacation that does not end before the last one processed, read
    on an index that covers it, takes a number of days off that is not
    negative, and deducts no less than 0 and no more than these days off,
    or else the half day: [spent] does not go down. *)
Theorem vacation_deduction holidays first last st ev l :
  classify ev = VacationBooking ->
  Date.IsZero (startDate st) = false ->
  lastDate st = Some l ->
  (0 <= fte st <= 1)%Q ->
  first <= Start ev -> Start ev <= End_ ev -> End_ ev <= last ->
  (forall lv, lastVacationDate st = Some lv -> first <= lv <= End_ ev) ->
  exists st' u,
    loop_body (build_workdays holidays first last) st ev
    = Continue st' (Some u) /\
    (0 <= u_daysOff u)%Q /\ (0 <= u_effDaysOff u)%Q /\
    ((u_effDaysOff u <= u_daysOff u)%Q \/ u_effDaysOff u = 1 # 2) /\
    (spent st <= spent st')%Q.
Proof.
  intros Hc Hz Hl Hf Hlo Hse Hhi Hlv.
  rewrite (loop_body_vacation _ _ _ Hc).
  destruct (on_vacation_after_accrue (build_workdays holidays first last)
              st ev l Hl Hz) as (u & -> & _ & _ & Hd & He).
  assert (Hp : first <= patched_start st ev <= End_ ev).
  { unfold patched_start. destruct (lastVacationDate st) as [lv|]; [|lia].
    specialize (Hlv lv eq_refl). destruct (Start ev <? lv); lia. }
  rewrite wd_build_diff in Hd by lia.
  assert (Hx : (0 <= u_daysOff u)%Q).
  { rewrite Hd. change 0%Q with (inject_Z 0). rewrite <- Zle_Qle.
    unfold count_workdays. lia. }
  destruct (effective_bounds (fte st)
              (inject_Z (End_ ev - patched_start st ev)) (u_daysOff u)
              (Re.reHalfDay (Summary ev)) Hf Hx) as [H0 H1].
  rewrite <- He in H0, H1.
  do 2 eexists. split; [reflexivity|].
  split; [exact Hx|]. split; [exact H0|]. split; [exact H1|].
  cbn [spent]. lra.
Qed.

Lemma vacation_deduction_witness :
  exists st' u,
    loop_body (build_workdays Sample.holidays (Sample.jan 1) (Sample.jan 31))
      (ledger_of (run Sample.workdays init [] [Sample.start100]))
      Sample.week = Continue st' (Some u) /\
    (0 <= u_effDaysOff u)%Q.
Proof.
  destruct (vacation_deduction Sample.holidays (Sample.jan 1) (Sample.jan 31)
              (ledger_of (run Sample.workdays init [] [Sample.start100]))
              Sample.week (Sample.jan 1))
    as (st' & u & H & _ & H0 & _).
  - reflexivity.
  - reflexivity.
  - reflexivity.
  - vm_compute. split; congruence.
  - vm_compute. congruence.
  - vm_compute. congruence.
  - vm_compute. congruence.
  - intros lv E. discriminate E.
  - exists st', u. split; assumption.
Defined.

(** X20: for an employee at [v] percent a span of [n] calendar days is
    pro-rated exactly when [v <= 20 * n], the threshold included;
    otherwise it counts its working days, or one half for a span of at
    most one day with the half-day hint. *)
Theorem prorated_percent (v n : Z) (x : Q) (h : bool) :
  0 <= v <= 100 ->
  effective (inject_Z v / 100) (inject_Z n) x h
  = if v <=? 20 * n then (inject_Z v / 100 * x)%Q
    else if (n <=? 1) && h then 1 # 2
    else x.
Proof.
  intros Hv. unfold effective.
  assert (E1 : Qle_bool (5 * (inject_Z v / 100)) (inject_Z n) = (v <=? 20 * n)).
  { unfold Qdiv. change (/ 100)%Q with (1 # 100)%Q.
    destruct (Z.leb_spec v (20 * n)) as [H | H].
    - apply Qle_bool_iff. rewrite Zle_Qle, inject_Z_mult in H.
      change (inject_Z 20) with 20%Q in H. lra.
    - destruct (Qle_bool (5 * (inject_Z v * (1 # 100))) (inject_Z n)) eqn:E;
        [|reflexivity].
      apply Qle_bool_iff in E.
      assert (Hq : (inject_Z v <= inject_Z (20 * n))%Q)
        by (rewrite inject_Z_mult; change (inject_Z 20) with 20%Q; lra).
      rewrite <- Zle_Qle in Hq. lia. }
  assert (E2 : Qle_bool (101 # 100) (inject_Z n) = negb (n <=? 1)).
  { destruct (Z.leb_spec n 1) as [H | H]; cbn [negb].
    - destruct (Qle_bool (101 # 100) (inject_Z n)) eqn:E; [|reflexivity].
      apply Qle_bool_iff in E. rewrite Zle_Qle in H.
      change (inject_Z 1) with 1%Q in H. lra.
    - apply Qle_bool_iff. assert (2 <= n) as H' by lia.
      rewrite Zle_Qle in H'. change (inject_Z 2) with 2%Q in H'. lra. }
  rewrite E1, E2, negb_involutive. reflexivity.
Qed.

Lemma prorated_percent_witness :
  effective (inject_Z 60 / 100) (inject_Z 3) 3 false = (inject_Z 60 / 100 * 3)%Q.
Proof. apply (prorated_percent 60 3 3 false). lia. Defined.



(** ** X22: the projection to the end of the year *)

Lemma Year_bounds t :
  Date.ymd (Civil.Year t) 1 1 <= t < Date.ymd (Civil.Year t + 1) 1 1.
Proof.
  unfold Civil.Year. pose proof (ymd_civil t) as H.
  destruct (Civil.civil t) as [[y m] d]. destruct H as [Hv <-]. cbn [fst].
  now apply year_bounds.
Qed.

Lemma days_to_new_year zone D :
  1 <= D -> -86400 < zone < 86400 ->
  Z.quot ((D * 86400 - zone) * nsPerSecond) nsPerDay
  = D - (if 0 <? zone then 1 else 0).
Proof.
  intros HD Hz. unfold nsPerDay.
  change (24 * 3600 * nsPerSecond) with (86400 * nsPerSecond).
  assert (Hns : 0 < nsPerSecond) by reflexivity.
  rewrite Z.quot_div_nonneg by nia.
  rewrite Z.div_mul_cancel_r by lia.
  destruct (Z.ltb_spec 0 zone); Z.to_euclidean_division_equations; lia.
Qed.

(** X22: the projection adds to [accrued] the entitlement of the days
    from the end of the last vacation to the first of January after it,
    between 1 and 366 of them, at the fraction in force; where the zone of
    the machine is east of UTC it counts one day less. *)
Theorem projection_days zone st last :
  lastVacationDate st = Some last ->
  -86400 < zone < 86400 ->
  let D := Date.ymd (Civil.Year last + 1) 1 1 - last in
  let days := D - (if 0 <? zone then 1 else 0) in
  1 <= D <= 366 /\
  projection zone st
  = Some ((accrued st + fte st * HolidaysPerCalendarDay * inject_Z days)%Q,
          (accrued st + fte st * HolidaysPerCalendarDay * inject_Z days
           - spent st)%Q).
Proof.
  intros Hl Hz. cbv zeta.
  pose proof (Year_bounds last) as Hb.
  pose proof (year_length (Civil.Year last)) as Hy.
  unfold projection. rewrite Hl. cbv zeta.
  generalize dependent (Date.ymd (Civil.Year last + 1) 1 1). intros J Hb Hy.
  assert (HD : 1 <= J - last <= 366).
  { destruct (Civil.is_leap (Civil.Year last)); lia. }
  split; [exact HD|].
  replace (J * 86400 - zone - last * 86400)
    with ((J - last) * 86400 - zone) by ring.
  rewrite days_to_new_year by lia. reflexivity.
Qed.

Lemma projection_days_witness :
  projection 3600
    (mkLedger (Date.ymd 2024 1 1) (Some (Date.ymd 2024 1 12))
       (Some (Date.ymd 2024 1 12)) 1 (275 # 365) 4)
  = Some (((275 # 365) + 1 * HolidaysPerCalendarDay * inject_Z (355 - 1))%Q,
          ((275 # 365) + 1 * HolidaysPerCalendarDay * inject_Z (355 - 1) - 4)%Q).
Proof.
  apply (projection_days 3600
           (mkLedger (Date.ymd 2024 1 1) (Some (Date.ymd 2024 1 12))
              (Some (Date.ymd 2024 1 12)) 1 (275 # 365) 4)
           (Date.ymd 2024 1 12) eq_refl).
  lia.
Defined.

(** ** X24-X25: the patterns *)

Section Patterns.

Import Re.

Lemma lower_checked c : lower_check c = true.
Proof. destruct c as [[] [] [] [] [] [] [] []]; reflexivity. Qed.

Lemma to_lower_idem c : to_lower (to_lower c) = to_lower c.
Proof.
  pose proof (lower_checked c) as H. unfold lower_check in H.
  apply andb_prop in H as [H _]. apply andb_prop in H as [H _].
  now apply Ascii.eqb_eq.
Qed.

Lemma is_space_lower c : is_space (to_lower c) = is_space c.
Proof.
  pose proof (lower_checked c) as H. unfold lower_check in H.
  apply andb_prop in H as [H _]. apply andb_prop in H as [_ H].
  now apply eqb_prop.
Qed.

Lemma eqb_lower c x :
  In x ["197"; "191"; "226"; "132"; "170"]%char ->
  Ascii.eqb (to_lower c) x = Ascii.eqb c x.
Proof.
  intros Hx. pose proof (lower_checked c) as H. unfold lower_check in H.
  apply andb_prop in H as [_ H]. rewrite forallb_forall in H.
  apply eqb_prop. now apply H.
Qed.

(** [fold_char] with its patterns written as tests. *)
Lemma fold_char_tests a c r :
  fold_char a (String c r)
  = if Ascii.eqb (to_lower c) a then Some r
    else if Ascii.eqb a "s" then
      match r with
      | String c2 r' =>
          if Ascii.eqb c "197" && Ascii.eqb c2 "191" then Some r' else None
      | EmptyString => None
      end
    else if Ascii.eqb a "k" then
      match r with
      | String c2 (String c3 r') =>
          if Ascii.eqb c "226" && Ascii.eqb c2 "132" && Ascii.eqb c3 "170"
          then Some r' else None
      | _ => None
      end
    else None.
Proof.
  unfold fold_char. destruct (Ascii.eqb (to_lower c) a); [reflexivity|].
  destruct (Ascii.eqb a "s").
  - destruct r as [|c2 r'].
    + destruct c as [[] [] [] [] [] [] [] []]; reflexivity.
    + destruct (Ascii.eqb_spec c "197") as [->|Hc].
      * destruct c2 as [[] [] [] [] [] [] [] []]; reflexivity.
      * destruct c as [[] [] [] [] [] [] [] []]; try reflexivity.
        now contradict Hc.
  - destruct (Ascii.eqb a "k"); [|reflexivity].
    destruct (Ascii.eqb_spec c "226") as [->|Hc].
    + destruct r as [|c2 r']; [reflexivity|].
      destruct (Ascii.eqb_spec c2 "132") as [->|Hc2].
      * destruct r' as [|c3 r'']; [reflexivity|].
        destruct c3 as [[] [] [] [] [] [] [] []]; reflexivity.
      * destruct r' as [|c3 r''];
          destruct c2 as [[] [] [] [] [] [] [] []]; try reflexivity;
          now contradict Hc2.
    + destruct r as [|c2 [|c3 r'']];
        destruct c as [[] [] [] [] [] [] [] []]; try reflexivity;
        now contradict Hc.
Qed.

Lemma fold_char_lower a s :
  fold_char a (lower s) = option_map lower (fold_char a s).
Proof.
  destruct s as [|c r]; [reflexivity|]. cbn [lower].
  rewrite !fold_char_tests, to_lower_idem.
  destruct (Ascii.eqb (to_lower c) a); [reflexivity|].
  destruct (Ascii.eqb a "s").
  - destruct r as [|c2 r']; [reflexivity|]. cbn [lower].
    rewrite !eqb_lower by (cbn; tauto).
    now destruct (Ascii.eqb c "197" && Ascii.eqb c2 "191").
  - destruct (Ascii.eqb a "k"); [|reflexivity].
    destruct r as [|c2 [|c3 r']]; try reflexivity. cbn [lower].
    rewrite !eqb_lower by (cbn; tauto).
    now destruct (Ascii.eqb c "226" && Ascii.eqb c2 "132" && Ascii.eqb c3 "170").
Qed.

Lemma fold_lit_lower p : forall s,
  fold_lit p (lower s) = option_map lower (fold_lit p s).
Proof.
  induction p as [|a p IH]; intros s; [reflexivity|]. cbn [fold_lit].
  rewrite fold_char_lower. destruct (fold_char a s) as [r|]; [|reflexivity].
  cbn [option_map]. apply IH.
Qed.

Lemma skip_spaces_lower s : skip_spaces (lower s) = lower (skip_spaces s).
Proof.
  induction s as [|c r IH]; [reflexivity|]. cbn [lower skip_spaces].
  rewrite is_space_lower. now destruct (is_space c).
Qed.

Lemma spaces1_lower s : spaces1 (lower s) = option_map lower (spaces1 s).
Proof.
  destruct s as [|c r]; [reflexivity|]. cbn [lower spaces1].
  rewrite is_space_lower, skip_spaces_lower. now destruct (is_space c).
Qed.

Lemma matched_bind_lower {B} (o : option string) (k : string -> option B) :
  (forall r, matched (k (lower r)) = matched (k r)) ->
  matched (bind (option_map lower o) k) = matched (bind o k).
Proof. intros H. destruct o as [r|]; [apply H | reflexivity]. Qed.

Lemma matched_lower (o : option string) :
  matched (option_map lower o) = matched o.
Proof. now destruct o. Qed.

Lemma search_lower (at_head : string -> bool) s :
  (forall t, at_head (lower t) = at_head t) ->
  search at_head (lower s) = search at_head s.
Proof.
  intros H. induction s as [|c r IH]; [reflexivity|].
  cbn [search]. rewrite <- (H (String c r)), <- IH. reflexivity.
Qed.

Lemma patterns_lower s :
  reStartDay (lower s) = reStartDay s /\
  reVacation (lower s) = reVacation s /\
  reHalfDay (lower s) = reHalfDay s.
Proof.
  split; [|split]; apply search_lower; intros t.
  - rewrite fold_lit_lower. apply matched_bind_lower. intros r1.
    rewrite spaces1_lower. apply matched_bind_lower. intros r2.
    rewrite fold_lit_lower. apply matched_bind_lower. intros r3.
    rewrite spaces1_lower. apply matched_bind_lower. intros r4.
    rewrite fold_lit_lower. apply matched_bind_lower. intros r5.
    rewrite !fold_lit_lower, matched_lower.
    destruct (matched (fold_lit "y" r5)); [reflexivity|].
    apply matched_lower.
  - now rewrite !fold_lit_lower, !matched_lower.
  - rewrite fold_lit_lower. apply matched_bind_lower. intros r1.
    rewrite spaces1_lower. apply matched_bind_lower. intros r2.
    rewrite fold_lit_lower. apply matched_lower.
Qed.

Lemma percent_era n : 0 <= n < 1000 -> percent_check n = true.
Proof.
  intros H. apply (all_from_spec (Z.to_nat 1000) 0 percent_check).
  - vm_compute. reflexivity.
  - rewrite Z2Nat.id; lia.
Qed.

End Patterns.

(** X24: three digits and a percent sign are read by their last two
    digits, but for "100%": a start marker that says 150% sets the
    fraction to 50%. *)
Theorem percent_three_digits (x y z : Z) :
  0 <= x <= 9 -> 0 <= y <= 9 -> 0 <= z <= 9 ->
  Re.rePercent (String (Civil.digit_char x)
                  (String (Civil.digit_char y)
                     (String (Civil.digit_char z) (String "%"%char EmptyString))))
  = Some (if (x =? 1) && (y =? 0) && (z =? 0) then "100"%string
          else String (Civil.digit_char y)
                 (String (Civil.digit_char z) EmptyString)).
Proof.
  intros Hx Hy Hz.
  pose proof (percent_era (100 * x + 10 * y + z) ltac:(lia)) as H.
  unfold percent_check, pad2 in H.
  replace ((100 * x + 10 * y + z) / 100) with x in H
    by (Z.to_euclidean_division_equations; lia).
  replace ((100 * x + 10 * y + z) mod 100 / 10) with y in H
    by (Z.to_euclidean_division_equations; lia).
  replace ((100 * x + 10 * y + z) mod 100 mod 10) with z in H
    by (Z.to_euclidean_division_equations; lia).
  destruct (Re.rePercent _) as [g|]; [|discriminate].
  apply String.eqb_eq in H. subst g. f_equal.
  replace ((x =? 1) && (y =? 0) && (z =? 0)) with (100 * x + 10 * y + z =? 100);
    [reflexivity|].
  destruct (Z.eqb_spec (100 * x + 10 * y + z) 100);
    destruct (Z.eqb_spec x 1); destruct (Z.eqb_spec y 0);
    destruct (Z.eqb_spec z 0); cbn [andb]; try reflexivity; lia.
Qed.

Lemma percent_three_digits_witness :
  Re.rePercent "150%" = Some "50"%string.
Proof. apply (percent_three_digits 1 5 0); lia. Defined.

(** X25: two summaries that differ only in the case of their ASCII
    letters are classified alike and carry the same half-day hint: the
    three patterns are compiled with [(?i)]. *)
Theorem classify_any_case (a b : Event) :
  lower (Summary a) = lower (Summary b) ->
  classify a = classify b /\
  Re.reHalfDay (Summary a) = Re.reHalfDay (Summary b).
Proof.
  intros H.
  destruct (patterns_lower (Summary a)) as (Hs & Hv & Hh).
  destruct (patterns_lower (Summary b)) as (Hs' & Hv' & Hh').
  unfold classify. rewrite <- Hs, <- Hv, <- Hh, <- Hs', <- Hv', <- Hh', H.
  split; reflexivity.
Qed.

Lemma classify_any_case_witness :
  classify (mkEvent "HOLIDAY (Half Day)" "" 5 6) = VacationBooking /\
  Re.reHalfDay "HOLIDAY (Half Day)" = true.
Proof.
  apply (classify_any_case (mkEvent "HOLIDAY (Half Day)" "" 5 6)
           (mkEvent "holiday (half day)" "" 5 6)).
  reflexivity.
Defined.

(** ** X26-X27: the running sum in binary64 *)

(** X26: at every percentage from 0 to 100, for every span of up to 100
    days and every day it can be cut at, the binary64 sum of line 175
    after the two steps and after the single step are the same number or
    two numbers next to each other: the cut moves the sum by one unit in
    the last place at most. *)
Lemma accrual_cut_binary64 :
  forallb (fun v =>
    forallb (fun n =>
      forallb (fun k =>
        Binary64.adjacent (Binary64.accrual v 0 [k; n])
                          (Binary64.accrual v 0 [n]))
        (Binary64.upto (S (Z.to_nat n))))
      (Binary64.upto 101))
    (Binary64.upto 101) = true.
Proof. vm_compute. reflexivity. Qed.

(** X27: at every percentage from 0 to 100 and for every span [n] of up
    to 366 days, the binary64 sum of line 175 after a single step is
    within three times 2^-53 of [v/100 * (25/365) * n], relatively. *)
Lemma accrual_step_binary64 :
  forallb (fun v =>
    forallb (fun n =>
      Binary64.within 3 (Binary64.accrual v 0 [n])
        (inject_Z v / 100 * (25 # 365) * inject_Z n))
      (Binary64.upto 367))
    (Binary64.upto 101) = true.
Proof. vm_compute. reflexivity. Qed.
